(** * trailing_whitespace_fixer: a shallow embedding and its properties

    The development follows [pre_commit_hooks/trailing_whitespace_fixer.py]:
    - [Bytes]: the operations of Python's [bytes] the hook uses
      ([endswith], slicing from the right, [isspace], [rstrip]);
    - [_process_line]: the per-line rewrite;
    - [fix_lines] and [_fix_file]: the loop over the numbered lines of a file
      and the read / rewrite / write-back driver;
    - [Hunks]: [str.splitlines], the hunk-header pattern, [int] and
      [get_changed_lines];
    - [main]: the driver behind the argument parser.

    Python [bytes] are [list byte]; Python [int] is [Z]; a Python [str] is the
    list of its code points; a [set] of ints is a [gset Z]. *)

From Stdlib Require Import ZArith Lia List Bool.
From Stdlib Require Import Strings.Ascii Strings.Byte Strings.String.
From stdpp Require Import base decidable list list_numbers option gmap sets strings.

Open Scope Z_scope.
Open Scope list_scope.

(** ** Bytes *)

Abbreviation bytes := (list byte).

#[global] Instance byte_eq_decision : EqDecision byte := Byte.byte_eq_dec.

(** A [bytes] literal with ASCII content. *)
Definition B (s : string) : bytes := list_byte_of_string s.

Definition CR : byte := x0d.
Definition LF : byte := x0a.
Definition SP : byte := x20.

(** [b'\r\n'], [b'\n'], [b'  ']. *)
Definition CRLF : bytes := [CR; LF].
Definition NL : bytes := [LF].
Definition TWO_SPACES : bytes := [SP; SP].

Module Bytes.

(** The ASCII whitespace of [bytes.isspace] and of [bytes.rstrip(None)]:
    space, tab, newline, carriage return, vertical tab, form feed. *)
Definition Py_ISSPACE (b : byte) : bool :=
  match b with
  | x09 | x0a | x0b | x0c | x0d | x20 => true
  | _ => false
  end.

(** [l.endswith(s)]. *)
Definition endswith (l s : bytes) : bool :=
  (length s <=? length l)%nat && bool_decide (drop (length l - length s) l = s).

(** [l[:-n]] for a positive literal [n]: everything but the last [n] bytes,
    and the empty sequence when [l] has fewer than [n]. *)
Definition slice_to_neg (n : nat) (l : bytes) : bytes :=
  take (length l - n) l.

(** [l.isspace()]: non-empty and every byte is ASCII whitespace. *)
Definition isspace (l : bytes) : bool :=
  match l with
  | [] => false
  | _ => forallb Py_ISSPACE l
  end.

(** [b in chars] for the argument of [rstrip]: [None] stands for the
    ASCII whitespace, [Some cs] for the bytes of [cs]. *)
Definition in_chars (chars : option bytes) (b : byte) : bool :=
  match chars with
  | None => Py_ISSPACE b
  | Some cs => bool_decide (b ∈ cs)
  end.

(** The scan of [rstrip] from the right end: the longest suffix whose
    bytes all satisfy [p] is dropped. *)
Fixpoint rstrip_with (p : byte → bool) (l : bytes) : bytes :=
  match l with
  | [] => []
  | b :: t =>
      match rstrip_with p t with
      | [] => if p b then [] else [b]
      | t' => b :: t'
      end
  end.

(** [l.rstrip(chars)]. *)
Definition rstrip (chars : option bytes) (l : bytes) : bytes :=
  rstrip_with (in_chars chars) l.

End Bytes.

Import Bytes.

(** ** The per-line rewrite *)

(** Lines 69-76 of the source: the end-of-line marker is detected and cut
    off; the result is the pair of the local variables [(line, eol)]. *)
Definition split_eol (line : bytes) : bytes * bytes :=
  if endswith line CRLF then (slice_to_neg 2 line, CRLF)
  else if endswith line NL then (slice_to_neg 1 line, NL)
  else (line, []).

(** The guard of line 78. *)
Definition hard_break (is_markdown : bool) (line : bytes) : bool :=
  is_markdown && negb (isspace line) && endswith line TWO_SPACES.

Definition _process_line (line : bytes) (is_markdown : bool) (chars : option bytes) : bytes :=
  let '(line, eol) := split_eol line in
  if hard_break is_markdown line
  then rstrip chars (slice_to_neg 2 line) ++ TWO_SPACES ++ eol
  else rstrip chars line ++ eol.

(** The bytes the two [return] statements put in front of [eol]. *)
Definition rewrite_content (is_markdown : bool) (chars : option bytes) (line : bytes) : bytes :=
  if hard_break is_markdown line
  then rstrip chars (slice_to_neg 2 line) ++ TWO_SPACES
  else rstrip chars line.

(** The bytes a taken hard-break branch keeps behind the stripped part. *)
Definition kept_tail (is_markdown : bool) (line : bytes) : bytes :=
  if hard_break is_markdown line then TWO_SPACES else [].

(** ** The changed-line extractor *)

(** A Python [str] is the sequence of its code points. *)
Abbreviation str := (list Z).

(** A [str] literal with ASCII content. *)
Definition Str (s : string) : str :=
  (λ b, Z.of_N (Byte.to_N b)) <$> list_byte_of_string s.

(** The exceptions the hook meets: [open] of a missing file and the start of
    a program that is not there raise [FileNotFoundError], output of the
    child process that is not UTF-8 raises [UnicodeDecodeError], a non-zero
    exit raises [CalledProcessError], the one [get_changed_lines] catches. *)
Inductive exn := FileNotFoundError | UnicodeDecodeError | CalledProcessError.

(** What the child process does: it cannot be started, or it exits with a
    code after writing its standard output and standard error. An output is
    given as text mode hands it over (decoded as UTF-8), [None] standing for
    bytes that do not decode. *)
Inductive child :=
  | NotStarted
  | Exited (returncode : Z) (stdout stderr : option str).

(** [subprocess.run(..., stdout=PIPE, stderr=PIPE, check=True,
    encoding='utf-8')]: both outputs are decoded when they are collected, and
    only then is the exit code checked; the result is the exception raised or
    the [stdout] of the [CompletedProcess]. *)
Definition subprocess_run (c : child) : exn + str :=
  match c with
  | NotStarted => inl FileNotFoundError
  | Exited returncode (Some stdout) (Some stderr) =>
      if bool_decide (returncode = 0) then inr stdout else inl CalledProcessError
  | Exited _ _ _ => inl UnicodeDecodeError
  end.

Module Hunks.

(** The line boundaries of [str.splitlines]: LF, VT, FF, CR, FS, GS, RS,
    NEL, LINE SEPARATOR and PARAGRAPH SEPARATOR (CR LF counts once). *)
Definition is_linebreak (c : Z) : bool :=
  bool_decide (c ∈ [10; 11; 12; 13; 28; 29; 30; 133; 8232; 8233]).

(** [s.splitlines()], with [cur] the line being collected: a boundary
    closes the line (also an empty one), the end of the text closes it
    only when it is non-empty. *)
Fixpoint splitlines_from (cur s : str) : list str :=
  match s with
  | [] => match cur with [] => [] | _ => [cur] end
  | c :: rest =>
      if is_linebreak c then
        cur :: match rest with
               | c' :: rest' =>
                   if bool_decide (c = 13) && bool_decide (c' = 10)
                   then splitlines_from [] rest'
                   else splitlines_from [] rest
               | [] => splitlines_from [] rest
               end
      else splitlines_from (cur ++ [c]) rest
  end.

Definition splitlines (s : str) : list str := splitlines_from [] s.

Section Pattern.

(** The decimal-digit table of the Unicode database of the interpreter
    ([unicodedata.decimal]): on a [str], the class [\d] of [re] and the
    digits [int] accepts are the code points with a decimal value, not
    only ['0'..'9']. *)
Variable decimal : Z → option Z.

(** A literal piece of the pattern: the rest of the text behind it. *)
Definition lit (p s : str) : option str :=
  if bool_decide (take (length p) s = p) then Some (drop (length p) s) else None.

(** [\d*], greedy: the longest run of digits and the rest. *)
Fixpoint digits (s : str) : str * str :=
  match s with
  | c :: rest =>
      match decimal c with
      | Some _ => let '(d, r) := digits rest in (c :: d, r)
      | None => ([], s)
      end
  | [] => ([], [])
  end.

(** [\d+] *)
Definition digits1 (s : str) : option (str * str) :=
  match digits s with
  | ([], _) => None
  | (d, r) => Some (d, r)
  end.

(** [(?:,(\d+))?]: the group when a comma and a digit follow, nothing
    consumed otherwise. *)
Definition opt_count (s : str) : option str * str :=
  match s with
  | c :: r =>
      if bool_decide (c = 44) then
        match digits1 r with
        | Some (d, r') => (Some d, r')
        | None => (None, s)
        end
      else (None, s)
  | [] => (None, s)
  end.

(** [hunk_re.match(line)] for
    [hunk_re = re.compile(r'^@@ -\d+(?:,\d+)? \+(\d+)(?:,(\d+))? @@')]:
    the groups 1 and 2 of the match. Every piece is followed by a
    literal that is no digit, so the leftmost greedy choice is the only
    one that can succeed and the matcher never needs to go back; the
    match is anchored at the start and the text may go on behind it. *)
Definition hunk_re_match (line : str) : option (str * option str) :=
  r0 ← lit (Str "@@ -") line;
  '(_, r1) ← digits1 r0;
  let '(_, r2) := opt_count r1 in
  r3 ← lit (Str " +") r2;
  '(g1, r4) ← digits1 r3;
  let '(g2, r5) := opt_count r4 in
  _ ← lit (Str " @@") r5;
  Some (g1, g2).

(** [int(s)] on a string of digits, each taken with its decimal value (the
    interpreter's bound on the length of such a string is left out). *)
Definition int (s : str) : Z :=
  fold_left (λ acc c, 10 * acc + default 0 (decimal c)) s 0.

(** The body of the loop of lines 25-30. *)
Definition add_hunk (changed_lines : gset Z) (line : str) : gset Z :=
  match hunk_re_match line with
  | Some (g1, g2) =>
      let start := int g1 in
      let count := match g2 with Some g => int g | None => 1 end in
      changed_lines ∪ list_to_set (seqZ start count)
  | None => changed_lines
  end.

(** [git_diff filename] is what the child process
    [git diff --cached -U0 -- filename] does. *)
Variable git_diff : string → child.

(** The [try] catches [CalledProcessError] alone; any other exception of
    [subprocess.run] leaves the function. *)
Definition get_changed_lines (filename : string) : exn + gset Z :=
  let changed_lines : gset Z := ∅ in
  match subprocess_run (git_diff filename) with
  | inl CalledProcessError => inr changed_lines
  | inl e => inl e
  | inr stdout => inr (fold_left add_hunk (splitlines stdout) changed_lines)
  end.

End Pattern.

End Hunks.

Import Hunks.

(** ** The line rewriter and the driver *)

(** [enumerate(lines, start)] *)
Fixpoint enumerate {A} (start : Z) (l : list A) : list (Z * A) :=
  match l with
  | [] => []
  | x :: t => (start, x) :: enumerate (start + 1) t
  end.

(** [changed_lines is None or i in changed_lines] *)
Definition selected (changed_lines : option (gset Z)) (i : Z) : bool :=
  match changed_lines with
  | None => true
  | Some s => bool_decide (i ∈ s)
  end.

(** One round of the loop of lines 52-59 on the pair [(new_lines, changed)]. *)
Definition fix_step (changed_lines : option (gset Z)) (is_markdown : bool)
    (chars : option bytes) (st : list bytes * bool) (x : Z * bytes) : list bytes * bool :=
  let '(new_lines, changed) := st in
  let '(i, line) := x in
  if selected changed_lines i then
    let new_line := _process_line line is_markdown chars in
    (new_lines ++ [new_line], if bool_decide (new_line ≠ line) then true else changed)
  else (new_lines ++ [line], changed).

(** Lines 50-59: the rewritten lines and the flag [changed]. *)
Definition fix_lines (changed_lines : option (gset Z)) (is_markdown : bool)
    (chars : option bytes) (lines : list bytes) : list bytes * bool :=
  fold_left (fix_step changed_lines is_markdown chars) (enumerate 1 lines) ([], false).

(** What one round appends, and whether it raises the flag. *)
Definition rewritten (changed_lines : option (gset Z)) (is_markdown : bool)
    (chars : option bytes) (x : Z * bytes) : bytes :=
  if selected changed_lines x.1 then _process_line x.2 is_markdown chars else x.2.

Definition differs (changed_lines : option (gset Z)) (is_markdown : bool)
    (chars : option bytes) (x : Z * bytes) : bool :=
  selected changed_lines x.1 && bool_decide (_process_line x.2 is_markdown chars ≠ x.2).

(** [f.readlines()] on a file opened with ['rb']: a line ends behind each
    LF, the last one may have none; [cur] is the line being read. *)
Fixpoint readlines_from (cur data : bytes) : list bytes :=
  match data with
  | [] => match cur with [] => [] | _ => [cur] end
  | b :: rest =>
      if bool_decide (b = LF) then (cur ++ [b]) :: readlines_from [] rest
      else readlines_from (cur ++ [b]) rest
  end.

Definition readlines (data : bytes) : list bytes := readlines_from [] data.

(** The files of the working tree and the writes done so far, latest
    first. *)
Record world := World {
  files : gmap string bytes;
  written : list (string * bytes)
}.

(** [f.writelines(new_lines)] on [open(filename, 'wb')]. *)
Definition writelines (filename : string) (new_lines : list bytes) (w : world) : world :=
  let data := concat new_lines in
  World (<[filename := data]> (files w)) ((filename, data) :: written w).

Section Driver.

Variable decimal : Z → option Z.
Variable git_diff : string → child.

Definition _fix_file (filename : string) (is_markdown : bool) (chars : option bytes)
    (changed_only : bool) (w : world) : exn + world * bool :=
  let continue (changed_lines : option (gset Z)) : exn + world * bool :=
    match files w !! filename with
    | None => inl FileNotFoundError
    | Some data =>
        let lines := readlines data in
        let '(new_lines, changed) := fix_lines changed_lines is_markdown chars lines in
        if changed then inr (writelines filename new_lines w, true)
        else inr (w, false)
    end in
  if changed_only then
    match get_changed_lines decimal git_diff filename with
    | inl e => inl e
    | inr changed_lines =>
        if bool_decide (changed_lines = ∅) then inr (w, false)
        else continue (Some changed_lines)
    end
  else continue None.

End Driver.

(** ** The hunk header as the specification words it *)

Module HunkSpec.
Section Header.

Variable decimal : Z → option Z.

(** A non-empty run of decimal digits. *)
Definition number (s : str) : Prop :=
  s ≠ [] ∧ Forall (λ c, is_Some (decimal c)) s.

(** An optional [,<count>] field. *)
Definition opt_field (o : option str) : str :=
  match o with
  | Some d => 44 :: d
  | None => []
  end.

(** [line] starts with
    [@@ -<oldStart>[,<oldCount>] +<newStart>[,<newCount>] @@]. *)
Definition hunk_header (line : str) (new_start : str) (new_count : option str) : Prop :=
  ∃ old_start old_count rest,
    line = Str "@@ -" ++ old_start ++ opt_field old_count ++
           Str " +" ++ new_start ++ opt_field new_count ++ Str " @@" ++ rest ∧
    number old_start ∧ (∀ d, old_count = Some d → number d) ∧
    number new_start ∧ (∀ d, new_count = Some d → number d).

(** The new-side range [[newStart, newStart + newCount - 1]] of a
    header, [newCount] being 1 when the field is left out. *)
Definition in_new_range (new_start : str) (new_count : option str) (n : Z) : Prop :=
  let start := int decimal new_start in
  let count := match new_count with Some d => int decimal d | None => 1 end in
  start ≤ n ≤ start + count - 1.

End Header.

(** The table on ASCII: ['0'..'9'] are the only digits below 128. *)
Definition ascii_decimal (c : Z) : option Z :=
  if bool_decide (48 ≤ c ≤ 57) then Some (c - 48) else None.

Definition is_ascii (c : Z) : bool := bool_decide (0 ≤ c < 128).

End HunkSpec.

Import HunkSpec.

(** The lines of a diff: the text is cut at LF and nowhere else. *)
Fixpoint diff_lines_from (cur s : str) : list str :=
  match s with
  | [] => match cur with [] => [] | _ => [cur] end
  | c :: rest =>
      if bool_decide (c = 10) then cur :: diff_lines_from [] rest
      else diff_lines_from (cur ++ [c]) rest
  end.

Definition diff_lines (s : str) : list str := diff_lines_from [] s.

(** The staged diff of a new file whose one line, [foo], a form feed and
    [@@ -1 +99 @@ bar], holds a form feed. *)
Definition form_feed_diff : str :=
  Str "diff --git a/notes.txt b/notes.txt" ++ [10] ++
  Str "new file mode 100644" ++ [10] ++
  Str "index 0000000..5f4a1b2" ++ [10] ++
  Str "--- /dev/null" ++ [10] ++
  Str "+++ b/notes.txt" ++ [10] ++
  Str "@@ -0,0 +1 @@" ++ [10] ++
  Str "+foo" ++ [12] ++ Str "@@ -1 +99 @@ bar" ++ [10].

(** A staged diff as [git diff --cached -U0] prints it, with one hunk. *)
Definition example_diff : str :=
  Str "diff --git a/README.md b/README.md" ++ [10] ++
  Str "index 83db48f..bf269f4 100644" ++ [10] ++
  Str "--- a/README.md" ++ [10] ++
  Str "+++ b/README.md" ++ [10] ++
  Str "@@ -10,3 +12,5 @@ Usage" ++ [10] ++
  Str "-old line" ++ [10] ++
  Str "+new line  " ++ [10] ++
  Str "+@@ not a header" ++ [10].

(** ** The command line driver *)

(** A list of lines as [readlines] gives it: every line but the last ends in
    its only LF, the last is non-empty and has no LF in front of its last
    byte. *)
Fixpoint well_split (lines : list bytes) : Prop :=
  match lines with
  | [] => True
  | [line] => line ≠ [] ∧ LF ∉ slice_to_neg 1 line
  | line :: rest => (∃ k, line = k ++ NL ∧ LF ∉ k) ∧ well_split rest
  end.

(** [s.lstrip('.')] *)
Fixpoint lstrip_dots (s : string) : string :=
  match s with
  | String c rest => if bool_decide (c = "."%char) then lstrip_dots rest else s
  | EmptyString => s
  end.

(** [s.split(',')], with [cur] the piece being collected. *)
Fixpoint split_comma_from (cur s : string) : list string :=
  match s with
  | String c rest =>
      if bool_decide (c = ","%char) then cur :: split_comma_from EmptyString rest
      else split_comma_from (cur +:+ String c EmptyString) rest
  | EmptyString => [cur]
  end.

Definition split_comma (s : string) : list string := split_comma_from EmptyString s.

(** The result of [parser.parse_args(argv)]. A [str] of the command line is
    held in its UTF-8 form, so that [encode()] gives its bytes. *)
Record Namespace := {
  no_markdown_linebreak_ext : bool;
  markdown_linebreak_ext : list string;
  chars : option string;
  only_changed_lines : bool;
  filenames : list string
}.

Section Main.

Variable decimal : Z → option Z.
Variable git_diff : string → child.

(** [str.lower] and [os.path.splitext] of the interpreter. *)
Variable lower : string → string.
Variable splitext : string → string * string.

(** Line 96. *)
Definition md_exts_of (markdown_linebreak_ext : list string) : list string :=
  (λ x, "." +:+ lstrip_dots (lower x)) <$>
  filter (λ x, x ≠ EmptyString) (split_comma (String.concat "," markdown_linebreak_ext)).

(** The loop of lines 100-105 on the world, the lines printed so far and
    [return_code]; an exception of [_fix_file] ends it. *)
Fixpoint main_loop (all_md : bool) (md_exts : list string) (chars : option bytes)
    (only_changed_lines : bool) (filenames : list string)
    (w : world) (out : list string) (return_code : Z) : world * list string * (exn + Z) :=
  match filenames with
  | [] => (w, out, inr return_code)
  | filename :: rest =>
      let ext := (splitext (lower filename)).2 in
      let is_md := all_md || bool_decide (ext ∈ md_exts) in
      match _fix_file decimal git_diff filename is_md chars only_changed_lines w with
      | inl e => (w, out, inl e)
      | inr (w', true) =>
          main_loop all_md md_exts chars only_changed_lines rest
            w' (out ++ ["Fixing " +:+ filename]) 1
      | inr (w', false) =>
          main_loop all_md md_exts chars only_changed_lines rest w' out return_code
      end
  end.

(** [main] behind [parse_args]: the world it leaves, the lines it prints
    and the value it returns or the exception it raises. *)
Definition main (args : Namespace) (w : world) : world * list string * (exn + Z) :=
  let out :=
    if no_markdown_linebreak_ext args
    then ["--no-markdown-linebreak-ext now does nothing!"] else [] in
  let all_md := bool_decide ("*" ∈ markdown_linebreak_ext args) in
  let md_exts := md_exts_of (markdown_linebreak_ext args) in
  let chars := list_byte_of_string <$> chars args in
  main_loop all_md md_exts chars (only_changed_lines args) (filenames args) w out 0.

End Main.

(** * Properties *)

(** ** Facts on the [bytes] operations *)

Section BytesFacts.

Implicit Types (l k s : bytes) (b : byte) (p : byte → bool).

Lemma endswith_suffix l s : endswith l s = true ↔ ∃ k, l = k ++ s.
Proof.
  unfold endswith. rewrite andb_true_iff, Nat.leb_le, bool_decide_eq_true. split.
  - intros [_ Hd]. exists (take (length l - length s) l).
    transitivity (take (length l - length s) l ++ drop (length l - length s) l);
      [by rewrite take_drop | by rewrite Hd].
  - intros [k ->]. rewrite length_app. split; [lia|].
    replace (length k + length s - length s)%nat with (length k) by lia.
    by rewrite drop_app_length.
Qed.

Lemma endswith_app k s : endswith (k ++ s) s = true.
Proof. apply endswith_suffix. by exists k. Qed.

Lemma endswith_last l b : endswith l [b] = true ↔ last l = Some b.
Proof.
  rewrite endswith_suffix. split.
  - intros [k ->]. apply last_snoc.
  - intros H. destruct l as [|x l'] using rev_ind; [done|].
    rewrite last_snoc in H. injection H as ->. by eexists.
Qed.

Lemma endswith_last_false l b : endswith l [b] = false ↔ last l ≠ Some b.
Proof. rewrite <- endswith_last. by destruct (endswith l [b]). Qed.

Lemma slice_to_neg_app k s : slice_to_neg (length s) (k ++ s) = k.
Proof.
  unfold slice_to_neg. rewrite length_app.
  replace (length k + length s - length s)%nat with (length k) by lia.
  by rewrite take_app_length.
Qed.

Lemma slice_to_neg_nl k : slice_to_neg 1 (k ++ NL) = k.
Proof. exact (slice_to_neg_app k NL). Qed.

Lemma slice_to_neg_crlf k : slice_to_neg 2 (k ++ CRLF) = k.
Proof. exact (slice_to_neg_app k CRLF). Qed.

Lemma slice_to_neg_spaces k : slice_to_neg 2 (k ++ TWO_SPACES) = k.
Proof. exact (slice_to_neg_app k TWO_SPACES). Qed.

Lemma rstrip_with_snoc p l b :
  rstrip_with p (l ++ [b]) = if p b then rstrip_with p l else l ++ [b].
Proof.
  induction l as [|a l IH]; simpl.
  - by destruct (p b).
  - rewrite IH. destruct (p b) eqn:Hb; [done|].
    by destruct l.
Qed.

Lemma rstrip_with_split p l :
  ∃ removed, l = rstrip_with p l ++ removed ∧ forallb p removed = true.
Proof.
  induction l as [|b l IH] using rev_ind.
  - by exists [].
  - rewrite rstrip_with_snoc. destruct (p b) eqn:Hb.
    + destruct IH as (r & Hl & Hr). exists (r ++ [b]). split.
      * by rewrite app_assoc, <- Hl.
      * rewrite forallb_app, Hr. simpl. by rewrite Hb.
    + exists []. by rewrite app_nil_r.
Qed.

Lemma rstrip_with_last p l b : last (rstrip_with p l) = Some b → p b = false.
Proof.
  induction l as [|a l IH] using rev_ind; [done|].
  rewrite rstrip_with_snoc. destruct (p a) eqn:Ha; [done|].
  rewrite last_snoc. by intros [= <-].
Qed.

Lemma rstrip_with_fixed p l :
  (∀ b, last l = Some b → p b = false) → rstrip_with p l = l.
Proof.
  destruct l as [|a l _] using rev_ind; [done|].
  intros H. rewrite rstrip_with_snoc, (H a); [done|]. apply last_snoc.
Qed.

Lemma rstrip_with_idem p l : rstrip_with p (rstrip_with p l) = rstrip_with p l.
Proof. apply rstrip_with_fixed. intros b. apply rstrip_with_last. Qed.

Lemma rstrip_with_all p l : forallb p l = true → rstrip_with p l = [].
Proof.
  induction l as [|a l IH] using rev_ind; [done|].
  rewrite forallb_app. simpl. rewrite !andb_true_iff. intros (Hl & Ha & _).
  rewrite rstrip_with_snoc, Ha. auto.
Qed.

Lemma rstrip_with_length p l : (length (rstrip_with p l) ≤ length l)%nat.
Proof.
  destruct (rstrip_with_split p l) as (r & Hl & _).
  rewrite Hl at 2. rewrite length_app. lia.
Qed.

Lemma rstrip_with_prefix p l : rstrip_with p l `prefix_of` l.
Proof. destruct (rstrip_with_split p l) as (r & Hl & _). by exists r. Qed.

Lemma isspace_forallb l : isspace l = negb (bool_decide (l = [])) && forallb Py_ISSPACE l.
Proof. by destruct l. Qed.

End BytesFacts.

(** ** The end-of-line marker *)

Section EolFacts.

Implicit Types (line c : bytes).

Lemma endswith_two_last l a b : endswith l [a; b] = true → last l = Some b.
Proof.
  intros [k ->]%endswith_suffix.
  change (k ++ [a; b]) with (k ++ [a] ++ [b]). by rewrite app_assoc, last_snoc.
Qed.

Lemma endswith_crlf_lf c : last c ≠ Some CR → endswith (c ++ NL) CRLF = false.
Proof.
  intros Hc. destruct (endswith (c ++ NL) CRLF) eqn:He; [|done].
  apply endswith_suffix in He as [k Hk].
  change (k ++ CRLF) with (k ++ [CR] ++ NL) in Hk. rewrite app_assoc in Hk.
  apply app_inj_tail in Hk as [-> _]. by rewrite last_snoc in Hc.
Qed.

Lemma split_eol_crlf c : split_eol (c ++ CRLF) = (c, CRLF).
Proof.
  unfold split_eol. rewrite endswith_app. by rewrite slice_to_neg_crlf.
Qed.

Lemma split_eol_lf c : last c ≠ Some CR → split_eol (c ++ NL) = (c, NL).
Proof.
  intros Hc. unfold split_eol.
  rewrite endswith_crlf_lf, endswith_app by done. by rewrite slice_to_neg_nl.
Qed.

Lemma split_eol_none c : last c ≠ Some LF → split_eol c = (c, []).
Proof.
  intros Hc. unfold split_eol.
  destruct (endswith c CRLF) eqn:H1.
  { apply endswith_two_last in H1. done. }
  destruct (endswith c NL) eqn:H2; [|done].
  apply endswith_last in H2. done.
Qed.

(** The three ways a line ends. *)
Lemma split_eol_cases line :
  (∃ c, line = c ++ CRLF ∧ split_eol line = (c, CRLF)) ∨
  (∃ c, line = c ++ NL ∧ last c ≠ Some CR ∧ split_eol line = (c, NL)) ∨
  (last line ≠ Some LF ∧ split_eol line = (line, [])).
Proof.
  destruct (endswith line CRLF) eqn:H1.
  { apply endswith_suffix in H1 as [c ->]. left. exists c. by rewrite split_eol_crlf. }
  destruct (endswith line NL) eqn:H2.
  - apply endswith_suffix in H2 as [c ->]. right; left. exists c.
    assert (last c ≠ Some CR) as Hc.
    { intros Hl. destruct c as [|x c _] using rev_ind; [done|].
      rewrite last_snoc in Hl. injection Hl as ->.
      rewrite <- app_assoc in H1. change ([CR] ++ NL) with CRLF in H1.
      by rewrite endswith_app in H1. }
    by rewrite split_eol_lf.
  - right; right. apply endswith_last_false in H2. by rewrite split_eol_none.
Qed.

Lemma split_eol_app line : line = (split_eol line).1 ++ (split_eol line).2.
Proof.
  destruct (split_eol_cases line) as [(c & -> & ->)|[(c & -> & _ & ->)|[_ ->]]];
    simpl; by rewrite ?app_nil_r.
Qed.

Lemma process_line_eq line is_markdown chars :
  _process_line line is_markdown chars =
  rewrite_content is_markdown chars (split_eol line).1 ++ (split_eol line).2.
Proof.
  unfold _process_line, rewrite_content. destruct (split_eol line) as [c eol]; simpl.
  destruct (hard_break is_markdown c); [|done]. by rewrite <- app_assoc.
Qed.

(** What is cut and what is kept: the content is [kept ++ removed ++ tail]
    with [tail] the two spaces of a hard break (or nothing), [removed] a run
    of bytes of the strip set and [kept] not ending in one. *)
Lemma rewrite_content_shape is_markdown chars c :
  ∃ kept removed,
    c = kept ++ removed ++ kept_tail is_markdown c ∧
    forallb (in_chars chars) removed = true ∧
    (∀ b, last kept = Some b → in_chars chars b = false) ∧
    rewrite_content is_markdown chars c = kept ++ kept_tail is_markdown c.
Proof.
  unfold rewrite_content, kept_tail, rstrip.
  destruct (hard_break is_markdown c) eqn:Hb.
  - unfold hard_break in Hb. apply andb_true_iff in Hb as [_ He].
    apply endswith_suffix in He as [body ->].
    rewrite slice_to_neg_spaces.
    destruct (rstrip_with_split (in_chars chars) body) as (r & Hr & Hall).
    exists (rstrip_with (in_chars chars) body), r. split_and!; try done.
    + by rewrite app_assoc, <- Hr.
    + intros b. apply rstrip_with_last.
  - destruct (rstrip_with_split (in_chars chars) c) as (r & Hr & Hall).
    exists (rstrip_with (in_chars chars) c), r. split_and!; try done.
    + by rewrite !app_nil_r.
    + intros b. apply rstrip_with_last.
    + by rewrite app_nil_r.
Qed.

End EolFacts.

(** ** The per-line rewrite: what it keeps and what it removes *)

Section ProcessLine.

Implicit Types (line c : bytes) (chars : option bytes).

Lemma last_two_spaces l : last (l ++ TWO_SPACES) = Some SP.
Proof. change TWO_SPACES with ([SP] ++ [SP]). by rewrite app_assoc, last_snoc. Qed.

Lemma rewrite_content_last is_markdown chars c b :
  last (rewrite_content is_markdown chars c) = Some b →
  b = SP ∨ in_chars chars b = false.
Proof.
  unfold rewrite_content. destruct (hard_break is_markdown c).
  - rewrite last_two_spaces. intros [= <-]. by left.
  - intros H. right. by apply rstrip_with_last in H.
Qed.

(** Detecting the marker again behind a rewritten content. *)
Lemma resplit line nc :
  ((split_eol line).2 = NL → last nc ≠ Some CR) →
  ((split_eol line).2 = [] → last nc ≠ Some LF) →
  split_eol (nc ++ (split_eol line).2) = (nc, (split_eol line).2).
Proof.
  destruct (split_eol_cases line) as [(c & _ & ->)|[(c & _ & _ & ->)|[_ ->]]];
    simpl; intros H1 H2.
  - apply split_eol_crlf.
  - apply split_eol_lf. auto.
  - rewrite app_nil_r. apply split_eol_none. auto.
Qed.

Lemma hard_break_true is_markdown c :
  hard_break is_markdown c = true ↔
  is_markdown = true ∧ forallb Py_ISSPACE c = false ∧ ∃ body, c = body ++ TWO_SPACES.
Proof.
  unfold hard_break. rewrite !andb_true_iff, negb_true_iff, endswith_suffix. split.
  - intros [[-> Hs] [body ->]]. split_and!; [done| |by eexists].
    rewrite isspace_forallb in Hs. apply andb_false_iff in Hs as [Hs|Hs]; [|done].
    apply negb_false_iff, bool_decide_eq_true in Hs. by destruct body.
  - intros (-> & Hs & body & ->). split_and!; [done| |by eexists].
    rewrite isspace_forallb, Hs. apply andb_false_r.
Qed.

End ProcessLine.

(** C1: on a line whose content is not all whitespace and ends in two spaces,
    the Markdown rewrite strips the strip characters from what stands before
    those two spaces, keeps the two spaces and puts the end-of-line marker
    back; [b"text   \n"] becomes [b"text  \n"]. *)
Theorem C1_markdown_hard_break :
  (∀ line chars content eol body,
      split_eol line = (content, eol) →
      forallb Py_ISSPACE content = false →
      content = body ++ TWO_SPACES →
      ∃ kept removed,
        body = kept ++ removed ∧
        forallb (in_chars chars) removed = true ∧
        (∀ b, last kept = Some b → in_chars chars b = false) ∧
        line = body ++ TWO_SPACES ++ eol ∧
        _process_line line true chars = kept ++ TWO_SPACES ++ eol) ∧
  _process_line (B "text   " ++ NL) true None = B "text  " ++ NL.
Proof.
  split; [|by vm_compute].
  intros line chars content eol body Hsplit Hws ->.
  assert (hard_break true (body ++ TWO_SPACES) = true) as Hb.
  { apply hard_break_true. split_and!; [done..|by eexists]. }
  destruct (rewrite_content_shape true chars (body ++ TWO_SPACES))
    as (kept & removed & Hc & Hall & Hlast & Hout).
  unfold kept_tail in Hc, Hout. rewrite Hb in Hc, Hout.
  rewrite app_assoc in Hc. apply app_inv_tail in Hc.
  exists kept, removed. split_and!; try done.
  - rewrite (split_eol_app line), Hsplit. simpl. by rewrite <- app_assoc.
  - rewrite process_line_eq, Hsplit. simpl. by rewrite Hout, <- app_assoc.
Qed.

Lemma C1_markdown_hard_break_witness :
  ∃ kept removed,
    B "text " = kept ++ removed ∧
    forallb (in_chars None) removed = true ∧
    (∀ b, last kept = Some b → in_chars None b = false) ∧
    B "text   " ++ NL = B "text " ++ TWO_SPACES ++ NL ∧
    _process_line (B "text   " ++ NL) true None = kept ++ TWO_SPACES ++ NL.
Proof.
  apply (proj1 C1_markdown_hard_break (B "text   " ++ NL) None (B "text   ") NL (B "text "));
    reflexivity.
Defined.

(** C4, as the specification states it, fails: with the strip set [{x}] a
    line of two spaces keeps them. *)
Lemma C4_counterexample :
  ¬ (∀ line is_markdown chars,
        forallb Py_ISSPACE (split_eol line).1 = true →
        _process_line line is_markdown chars = (split_eol line).2).
Proof.
  intros H. specialize (H (B "  " ++ NL) false (Some (B "x")) eq_refl).
  vm_compute in H. discriminate H.
Qed.

(** C4 (amended): a line whose content is all whitespace is rewritten to its
    end-of-line marker alone, for both values of [is_markdown], when the strip
    characters are the default whitespace or an explicit set that holds every
    byte of the content. *)
Theorem C4_whitespace_line line is_markdown chars :
  forallb Py_ISSPACE (split_eol line).1 = true →
  (∀ cs, chars = Some cs → Forall (λ b, b ∈ cs) (split_eol line).1) →
  _process_line line is_markdown chars = (split_eol line).2.
Proof.
  intros Hws Hcs. rewrite process_line_eq.
  set (c := (split_eol line).1) in *.
  assert (hard_break is_markdown c = false) as Hb.
  { destruct (hard_break is_markdown c) eqn:Hb; [|done].
    apply hard_break_true in Hb as (_ & Hf & _). congruence. }
  unfold rewrite_content. rewrite Hb. unfold rstrip.
  rewrite rstrip_with_all; [done|].
  destruct chars as [cs|]; [|done]. simpl.
  apply forallb_forall. intros b Hin. apply bool_decide_eq_true.
  specialize (Hcs cs eq_refl). rewrite Forall_forall in Hcs.
  apply Hcs. by apply list_elem_of_In.
Qed.

Lemma C4_whitespace_line_witness :
  _process_line (B " " ++ [x09] ++ B "  " ++ CRLF) true None = CRLF.
Proof.
  apply (C4_whitespace_line (B " " ++ [x09] ++ B "  " ++ CRLF) true None).
  - reflexivity.
  - intros cs H. discriminate H.
Defined.

(** C5, as the specification states it, fails: with the strip set [{x}] the
    line [b"a\rx\n"], which ends in LF, becomes [b"a\r\n"], which ends in
    CRLF. *)
Lemma C5_counterexample :
  ¬ (∀ line is_markdown chars,
        (split_eol (_process_line line is_markdown chars)).2 = (split_eol line).2).
Proof.
  intros H. specialize (H (B "a" ++ [CR] ++ B "x" ++ NL) false (Some (B "x"))).
  vm_compute in H. discriminate H.
Qed.

(** C5 (amended): the rewritten line is a rewritten content followed by the
    bytes of the marker detected on the input line; the marker detected on the
    rewritten line is that same marker for the default strip characters, and
    for an explicit set whenever the rewritten content does not end in CR in
    front of an LF marker nor in LF where the marker is missing. *)
Theorem C5_eol_preserved line is_markdown chars :
  ∃ new_content,
    _process_line line is_markdown chars = new_content ++ (split_eol line).2 ∧
    (chars = None ∨
     (((split_eol line).2 = NL → last new_content ≠ Some CR) ∧
      ((split_eol line).2 = [] → last new_content ≠ Some LF)) →
     split_eol (_process_line line is_markdown chars) = (new_content, (split_eol line).2)).
Proof.
  exists (rewrite_content is_markdown chars (split_eol line).1).
  split; [apply process_line_eq|].
  intros H. rewrite process_line_eq. apply resplit.
  - destruct H as [->|[H _]]; [|done]. intros _ Hl.
    by apply rewrite_content_last in Hl as [Hl|Hl].
  - destruct H as [->|[_ H]]; [|done]. intros _ Hl.
    by apply rewrite_content_last in Hl as [Hl|Hl].
Qed.

Lemma C5_eol_preserved_witness :
  ∃ new_content,
    _process_line (B "a " ++ [CR] ++ CRLF) true None = new_content ++ CRLF ∧
    split_eol (_process_line (B "a " ++ [CR] ++ CRLF) true None) = (new_content, CRLF).
Proof.
  destruct (C5_eol_preserved (B "a " ++ [CR] ++ CRLF) true None) as (nc & H1 & H2).
  exists nc. split; [exact H1|]. apply H2. left. reflexivity.
Defined.

(** C9: on the ordinary stripping path (no hard break taken) an explicit strip
    set removes a trailing run of its own members and nothing else, so
    [b"abcxxx\n"] becomes [b"abc\n"] under [{x}] and a line that ends in
    spaces stays as it is when the space is not in the set; the default
    removes the whole trailing run of ASCII whitespace. *)
Theorem C9_strip_chars :
  (∀ line is_markdown cs,
      hard_break is_markdown (split_eol line).1 = false →
      ∃ kept removed,
        (split_eol line).1 = kept ++ removed ∧
        Forall (λ b, b ∈ cs) removed ∧
        (∀ b, last kept = Some b → b ∉ cs) ∧
        _process_line line is_markdown (Some cs) = kept ++ (split_eol line).2) ∧
  (∀ is_markdown,
      _process_line (B "abcxxx" ++ NL) is_markdown (Some (B "x")) = B "abc" ++ NL) ∧
  (∀ line is_markdown cs,
      hard_break is_markdown (split_eol line).1 = false →
      last (split_eol line).1 = Some SP →
      SP ∉ cs →
      _process_line line is_markdown (Some cs) = line) ∧
  (∀ line is_markdown,
      hard_break is_markdown (split_eol line).1 = false →
      ∃ kept removed,
        (split_eol line).1 = kept ++ removed ∧
        Forall (λ b, Py_ISSPACE b = true) removed ∧
        (∀ b, last kept = Some b → Py_ISSPACE b = false) ∧
        _process_line line is_markdown None = kept ++ (split_eol line).2).
Proof.
  split_and!.
  - intros line md cs Hb.
    destruct (rewrite_content_shape md (Some cs) (split_eol line).1)
      as (kept & removed & Hc & Hall & Hlast & Hout).
    unfold kept_tail in Hc, Hout. rewrite Hb, app_nil_r in Hc, Hout.
    exists kept, removed. split_and!; [done| | |].
    + apply Forall_forall. intros b Hin.
      rewrite forallb_forall in Hall.
      apply list_elem_of_In, Hall in Hin. by apply bool_decide_eq_true in Hin.
    + intros b Hl Hin. apply Hlast in Hl. simpl in Hl.
      by apply bool_decide_eq_false in Hl.
    + by rewrite process_line_eq, Hout.
  - by intros [].
  - intros line md cs Hb Hl Hsp. rewrite process_line_eq.
    unfold rewrite_content, rstrip. rewrite Hb, rstrip_with_fixed.
    + symmetry. apply split_eol_app.
    + intros b Hl'. rewrite Hl in Hl'. injection Hl' as <-.
      simpl. by apply bool_decide_eq_false.
  - intros line md Hb.
    destruct (rewrite_content_shape md None (split_eol line).1)
      as (kept & removed & Hc & Hall & Hlast & Hout).
    unfold kept_tail in Hc, Hout. rewrite Hb, app_nil_r in Hc, Hout.
    exists kept, removed. split_and!; [done| |done|].
    + apply Forall_forall. intros b Hin.
      rewrite forallb_forall in Hall. by apply list_elem_of_In, Hall in Hin.
    + by rewrite process_line_eq, Hout.
Qed.

Lemma C9_strip_chars_witness :
  _process_line (B "abx  " ++ NL) false (Some (B "x")) = B "abx  " ++ NL ∧
  ∃ kept removed,
    B "ab " ++ [x09] = kept ++ removed ∧
    Forall (λ b, Py_ISSPACE b = true) removed ∧
    (∀ b, last kept = Some b → Py_ISSPACE b = false) ∧
    _process_line (B "ab " ++ [x09] ++ CRLF) true None = kept ++ CRLF.
Proof.
  destruct C9_strip_chars as (_ & _ & Hsp & Hnone). split.
  - apply (Hsp (B "abx  " ++ NL) false (B "x")); [reflexivity|reflexivity|].
    apply (bool_decide_unpack (SP ∉ B "x")). vm_compute. exact I.
  - apply (Hnone (B "ab " ++ [x09] ++ CRLF) true). reflexivity.
Defined.

(** C10: the rewritten line is never longer than the line, and its content
    in front of the end-of-line marker comes from the content of the line by
    removing bytes only. *)
Theorem C10_never_longer line is_markdown chars :
  (length (_process_line line is_markdown chars) ≤ length line)%nat ∧
  ∃ new_content,
    line = (split_eol line).1 ++ (split_eol line).2 ∧
    _process_line line is_markdown chars = new_content ++ (split_eol line).2 ∧
    new_content `sublist_of` (split_eol line).1.
Proof.
  destruct (rewrite_content_shape is_markdown chars (split_eol line).1)
    as (kept & removed & Hc & _ & _ & Hout).
  assert (rewrite_content is_markdown chars (split_eol line).1
            `sublist_of` (split_eol line).1) as Hsub.
  { rewrite Hout.
    generalize dependent (kept_tail is_markdown (split_eol line).1).
    intros tail -> _. apply sublist_app; [done|]. by apply sublist_inserts_l. }
  split.
  - rewrite process_line_eq. rewrite (split_eol_app line) at 3.
    rewrite !length_app. apply sublist_length in Hsub. lia.
  - eexists. split_and!; [apply split_eol_app|apply process_line_eq|done].
Qed.

(** ** The loop over the numbered lines *)

Section FixLines.

Context (changed_lines : option (gset Z)) (is_markdown : bool) (chars : option bytes).

Lemma enumerate_lookup {A} (l : list A) start (n : nat) :
  enumerate start l !! n = (λ x, (start + Z.of_nat n, x)) <$> l !! n.
Proof.
  revert start n. induction l as [|x l IH]; intros start [|n]; simpl; try done.
  - by rewrite Z.add_0_r.
  - rewrite IH. destruct (l !! n); simpl; [|done]. do 2 f_equal. lia.
Qed.

Lemma enumerate_snd {A} (l : list A) start : (enumerate start l).*2 = l.
Proof. revert start. induction l as [|x l IH]; intros start; simpl; by rewrite ?IH. Qed.

Lemma fix_fold xs acc ch :
  fold_left (fix_step changed_lines is_markdown chars) xs (acc, ch) =
  (acc ++ (rewritten changed_lines is_markdown chars <$> xs),
   ch || existsb (differs changed_lines is_markdown chars) xs).
Proof.
  revert acc ch. induction xs as [|[i line] xs IH]; intros acc ch; simpl.
  - by rewrite app_nil_r, orb_false_r.
  - unfold rewritten at 1, differs at 1. simpl.
    destruct (selected changed_lines i); simpl; rewrite IH, <- app_assoc; simpl.
    + f_equal. case_bool_decide; simpl; [|done]. by destruct ch.
    + done.
Qed.

Lemma fix_lines_eq lines :
  fix_lines changed_lines is_markdown chars lines =
  (rewritten changed_lines is_markdown chars <$> enumerate 1 lines,
   existsb (differs changed_lines is_markdown chars) (enumerate 1 lines)).
Proof. unfold fix_lines. by rewrite fix_fold. Qed.

Lemma fix_lines_lookup lines (n : nat) line :
  lines !! n = Some line →
  (fix_lines changed_lines is_markdown chars lines).1 !! n =
  Some (if selected changed_lines (Z.of_nat n + 1)
        then _process_line line is_markdown chars else line).
Proof.
  intros Hn. rewrite fix_lines_eq. simpl.
  rewrite list_lookup_fmap, enumerate_lookup, Hn. simpl.
  unfold rewritten. simpl. by rewrite (Z.add_comm 1).
Qed.

Lemma fix_lines_changed lines :
  (fix_lines changed_lines is_markdown chars lines).2 = true ↔
  ∃ (n : nat) line,
    lines !! n = Some line ∧ selected changed_lines (Z.of_nat n + 1) = true ∧
    _process_line line is_markdown chars ≠ line.
Proof.
  rewrite fix_lines_eq. simpl. rewrite existsb_exists. split.
  - intros ([i line] & Hin & Hd). apply list_elem_of_In, list_elem_of_lookup in Hin as [n Hn].
    rewrite enumerate_lookup in Hn. destruct (lines !! n) as [line'|] eqn:Hl; [|done].
    simpl in Hn. injection Hn as <- <-.
    unfold differs in Hd. simpl in Hd. apply andb_true_iff in Hd as [Hs Hne].
    apply bool_decide_eq_true in Hne. exists n, line'.
    by rewrite (Z.add_comm _ 1).
  - intros (n & line & Hl & Hs & Hne). exists (1 + Z.of_nat n, line). split.
    + apply list_elem_of_In, list_elem_of_lookup. exists n.
      by rewrite enumerate_lookup, Hl.
    + unfold differs. simpl. rewrite (Z.add_comm 1), Hs. simpl.
      by apply bool_decide_eq_true.
Qed.

Lemma fix_lines_length lines :
  length (fix_lines changed_lines is_markdown chars lines).1 = length lines.
Proof.
  rewrite fix_lines_eq. simpl. rewrite length_fmap.
  rewrite <- (enumerate_snd lines 1) at 2. by rewrite length_fmap.
Qed.

End FixLines.

(** C2: with a restriction set, the line numbered [n + 1] (the [n]-th of the
    list) is rewritten when its number is in the set and copied as it is
    otherwise, at the same place of the output; the flag is raised exactly
    when a rewritten line differs from its input. Lines 1-3
    [b"a  \n"; b"b  \n"; b"c  \n"] with the set [{2}] (no Markdown, default
    strip characters) give [b"a  \n"; b"b\n"; b"c  \n"] and the flag. *)
Theorem C2_restriction_set :
  (∀ (s : gset Z) is_markdown chars lines,
      let out := (fix_lines (Some s) is_markdown chars lines).1 in
      let changed := (fix_lines (Some s) is_markdown chars lines).2 in
      length out = length lines ∧
      (∀ (n : nat) line,
          lines !! n = Some line →
          out !! n = Some (if bool_decide (Z.of_nat n + 1 ∈ s)
                           then _process_line line is_markdown chars else line)) ∧
      (changed = true ↔
       ∃ (n : nat) line,
         lines !! n = Some line ∧ Z.of_nat n + 1 ∈ s ∧
         _process_line line is_markdown chars ≠ line)) ∧
  fix_lines (Some {[2]}) false None [B "a  " ++ NL; B "b  " ++ NL; B "c  " ++ NL] =
  ([B "a  " ++ NL; B "b" ++ NL; B "c  " ++ NL], true).
Proof.
  split.
  - intros s md chars lines. split_and!.
    + apply fix_lines_length.
    + intros n line Hn. by rewrite (fix_lines_lookup _ _ _ _ _ _ Hn).
    + rewrite fix_lines_changed. simpl.
      by setoid_rewrite bool_decide_eq_true.
  - by vm_compute.
Qed.

Lemma C2_restriction_set_witness :
  (fix_lines (Some {[2]}) false None [B "a  " ++ NL; B "b  " ++ NL; B "c  " ++ NL]).1 !! 1%nat =
  Some (B "b" ++ NL).
Proof.
  destruct (proj1 C2_restriction_set {[2]} false None
              [B "a  " ++ NL; B "b  " ++ NL; B "c  " ++ NL]) as (_ & H & _).
  apply (H 1%nat (B "b  " ++ NL)). reflexivity.
Defined.

(** ** Rewriting a rewritten line *)

Section Idempotence.

Implicit Types (line c : bytes) (chars : option bytes).

Lemma forallb_last_false (p : byte → bool) (l t : bytes) b :
  last l = Some b → p b = false → forallb p (l ++ t) = false.
Proof.
  intros Hl Hb. destruct l as [|x l _] using rev_ind; [done|].
  rewrite last_snoc in Hl. injection Hl as ->.
  rewrite !forallb_app. simpl. rewrite Hb. by rewrite andb_false_r.
Qed.

(** A rewritten content is rewritten to itself when the strip characters
    are the default ones, and for any strip characters outside Markdown
    mode. *)
Lemma rewrite_content_idem is_markdown chars c :
  chars = None ∨ is_markdown = false →
  rewrite_content is_markdown chars (rewrite_content is_markdown chars c) =
  rewrite_content is_markdown chars c.
Proof.
  intros Hcase. unfold rewrite_content at 2 3.
  destruct (hard_break is_markdown c) eqn:Hb.
  - apply hard_break_true in Hb as (-> & Hws & body & ->).
    destruct Hcase as [->|?]; [|done].
    rewrite slice_to_neg_spaces.
    set (s := rstrip None body).
    assert (∃ b, last s = Some b ∧ Py_ISSPACE b = false) as (b & Hl & Hnb).
    { destruct (last s) as [b|] eqn:Hl.
      - exists b. split; [done|]. by apply (rstrip_with_last _ _ _ Hl).
      - apply last_None in Hl.
        destruct (rstrip_with_split Py_ISSPACE body) as (r & Hr & Hall).
        change (rstrip_with Py_ISSPACE body) with s in Hr.
        rewrite Hl in Hr. simpl in Hr. subst r.
        rewrite forallb_app, Hall in Hws. done. }
    unfold rewrite_content.
    assert (hard_break true (s ++ TWO_SPACES) = true) as ->.
    { apply hard_break_true. split_and!; [done| |by eexists].
      by apply (forallb_last_false _ _ _ b). }
    rewrite slice_to_neg_spaces. unfold s, rstrip.
    by rewrite rstrip_with_idem.
  - unfold rewrite_content.
    assert (hard_break is_markdown (rstrip chars c) = false) as ->.
    { destruct Hcase as [->| ->]; [|done].
      destruct (hard_break is_markdown (rstrip None c)) eqn:Hb'; [|done].
      apply hard_break_true in Hb' as (_ & _ & body & Hbody).
      pose proof (last_two_spaces body) as Hl. rewrite <- Hbody in Hl.
      by apply rstrip_with_last in Hl. }
    unfold rstrip. by rewrite rstrip_with_idem.
Qed.

Lemma process_line_idem line is_markdown chars :
  chars = None ∨
  (is_markdown = false ∧ in_chars chars CR = true ∧ in_chars chars LF = true) →
  _process_line (_process_line line is_markdown chars) is_markdown chars =
  _process_line line is_markdown chars.
Proof.
  intros Hcase.
  assert (in_chars chars CR = true ∧ in_chars chars LF = true) as [Hcr Hlf].
  { destruct Hcase as [->|(_ & ? & ?)]; done. }
  rewrite (process_line_eq line).
  set (nc := rewrite_content is_markdown chars (split_eol line).1).
  rewrite process_line_eq, resplit.
  - simpl. unfold nc. rewrite rewrite_content_idem; [done|].
    destruct Hcase as [?|(? & _)]; auto.
  - intros _ Hl. apply rewrite_content_last in Hl as [Hl|Hl]; [done|congruence].
  - intros _ Hl. apply rewrite_content_last in Hl as [Hl|Hl]; [done|congruence].
Qed.

(** Without a restriction set the line numbers play no part. *)
Lemma fix_lines_all is_markdown chars lines :
  fix_lines None is_markdown chars lines =
  ((λ line, _process_line line is_markdown chars) <$> lines,
   existsb (λ line, bool_decide (_process_line line is_markdown chars ≠ line)) lines).
Proof.
  rewrite fix_lines_eq. generalize 1. intros start. f_equal.
  - revert start. induction lines as [|line lines IH]; intros start; [done|].
    simpl. f_equal. apply IH.
  - revert start. induction lines as [|line lines IH]; intros start; [done|].
    simpl. f_equal. apply IH.
Qed.

End Idempotence.

(** C6, as the specification states it, fails: with the strip set [{x}] the
    line [b"ax\rx\n"] becomes [b"ax\r\n"], and that line becomes
    [b"a\r\n"] on the next run, which reports a change. *)
Lemma C6_counterexample :
  ¬ (∀ lines is_markdown chars,
        fix_lines None is_markdown chars (fix_lines None is_markdown chars lines).1 =
        ((fix_lines None is_markdown chars lines).1, false)).
Proof.
  intros H.
  specialize (H [B "ax" ++ [CR] ++ B "x" ++ NL] false (Some (B "x"))).
  vm_compute in H. discriminate H.
Qed.

(** In Markdown mode an explicit set fails in one more way: a first run can
    uncover a hard break that the second run then strips in front of. *)
Example markdown_explicit_twice :
  _process_line (B "ax  x" ++ NL) true (Some (B "x")) = B "ax  " ++ NL ∧
  _process_line (B "ax  " ++ NL) true (Some (B "x")) = B "a  " ++ NL.
Proof. by vm_compute. Qed.

(** C6 (amended): without a restriction set the rewrite of its own output
    gives that output back and reports no change, for every sequence of
    lines, when the strip characters are the default whitespace (Markdown or
    not), and outside Markdown mode when they are an explicit set that holds
    CR and LF. *)
Theorem C6_idempotent lines is_markdown chars :
  chars = None ∨
  (is_markdown = false ∧ ∃ cs, chars = Some cs ∧ CR ∈ cs ∧ LF ∈ cs) →
  fix_lines None is_markdown chars (fix_lines None is_markdown chars lines).1 =
  ((fix_lines None is_markdown chars lines).1, false).
Proof.
  intros Hcase.
  assert (∀ line, _process_line (_process_line line is_markdown chars) is_markdown chars =
                  _process_line line is_markdown chars) as Hidem.
  { intros line. apply process_line_idem.
    destruct Hcase as [->|(-> & cs & -> & Hcr & Hlf)]; [by left|right].
    simpl. by rewrite !bool_decide_eq_true. }
  rewrite (fix_lines_all is_markdown chars lines). cbn [fst].
  rewrite fix_lines_all. f_equal.
  - induction lines as [|line lines IH]; [done|].
    simpl. rewrite Hidem. f_equal. apply IH.
  - induction lines as [|line lines IH]; [done|].
    simpl. rewrite Hidem, bool_decide_eq_false_2 by (by intros Hne). apply IH.
Qed.

Lemma C6_idempotent_witness :
  let lines := [B "a  " ++ CRLF; B " " ++ NL; B "b " ++ [x09]] in
  fix_lines None true None (fix_lines None true None lines).1 =
  ((fix_lines None true None lines).1, false).
Proof.
  apply (C6_idempotent [B "a  " ++ CRLF; B " " ++ NL; B "b " ++ [x09]] true None).
  left. reflexivity.
Defined.

(** ** The driver and the diff collaborator *)

(** C7: when the diff command exits with a non-zero code, the changed-line
    extractor returns the empty set if both outputs of the command decode as
    UTF-8; if one of them does not, [subprocess.run] raises
    [UnicodeDecodeError] before it looks at the exit code, the [except]
    clause does not catch it and the error leaves the extractor. So it is
    with exit code 128 and a message on standard error that is not UTF-8. *)
Theorem C7_nonzero_exit decimal git_diff filename returncode stdout stderr :
  git_diff filename = Exited returncode stdout stderr →
  returncode ≠ 0 →
  get_changed_lines decimal git_diff filename =
  match stdout, stderr with
  | Some _, Some _ => inr ∅
  | _, _ => inl UnicodeDecodeError
  end.
Proof.
  intros Hrun Hcode. unfold get_changed_lines, subprocess_run. rewrite Hrun.
  destruct stdout as [out|], stderr as [err|]; try done.
  by rewrite bool_decide_eq_false_2.
Qed.

Lemma C7_nonzero_exit_witness :
  get_changed_lines ascii_decimal (λ _, Exited 128 (Some []) None) "README.md" =
  inl UnicodeDecodeError.
Proof.
  apply (C7_nonzero_exit ascii_decimal (λ _, Exited 128 (Some []) None) "README.md"
           128 (Some []) None); [reflexivity|lia].
Defined.

(** C8: in changed-lines-only mode, when the extractor gives the empty set
    for a file, [_fix_file] returns [False] and leaves the world as it was:
    the file keeps its bytes and nothing is written. *)
Theorem C8_empty_changed_set decimal git_diff filename is_markdown chars w :
  get_changed_lines decimal git_diff filename = inr ∅ →
  _fix_file decimal git_diff filename is_markdown chars true w = inr (w, false).
Proof.
  intros H. unfold _fix_file. rewrite H. by rewrite bool_decide_eq_true_2.
Qed.

Lemma C8_empty_changed_set_witness :
  let w := World {["README.md" := B "a  " ++ NL]} [] in
  _fix_file ascii_decimal (λ _, Exited 0 (Some []) (Some [])) "README.md" false None true w =
  inr (w, false).
Proof.
  apply (C8_empty_changed_set ascii_decimal (λ _, Exited 0 (Some []) (Some [])) "README.md" false None).
  reflexivity.
Defined.

(** The same file without the restriction: it is rewritten, once. *)
Example fix_file_writes :
  let w := World {["README.md" := B "a  " ++ NL ++ B "b"]} [] in
  _fix_file ascii_decimal (λ _, Exited 0 (Some []) (Some [])) "README.md" false None false w =
  inr (World {["README.md" := B "a" ++ NL ++ B "b"]}
             [("README.md", B "a" ++ NL ++ B "b")], true).
Proof. by vm_compute. Qed.

(** ** The hunk-header pattern *)

Section HunkFacts.

Variable decimal : Z → option Z.

(** On ASCII the table has the digits ['0'..'9'] and no other. *)
Hypothesis decimal_ascii : ∀ c, 0 ≤ c < 128 → decimal c = ascii_decimal c.

Implicit Types (s d r line : str).

Lemma lit_Some p s r : lit p s = Some r ↔ s = p ++ r.
Proof.
  unfold lit. split.
  - case_bool_decide as Hp; [|done]. intros [= <-].
    rewrite <- (take_drop (length p) s) at 1. by rewrite Hp.
  - intros ->. rewrite take_app_length, bool_decide_eq_true_2 by done.
    by rewrite drop_app_length.
Qed.

Lemma digits_sound s d r :
  digits decimal s = (d, r) →
  s = d ++ r ∧ Forall (λ c, is_Some (decimal c)) d ∧ head r ≫= decimal = None.
Proof.
  revert d r. induction s as [|c s IH]; intros d r; simpl.
  - by intros [= <- <-].
  - destruct (decimal c) as [v|] eqn:Hc.
    + destruct (digits decimal s) as [d' r'] eqn:Hd. intros [= <- <-].
      destruct (IH d' r' eq_refl) as (-> & Hall & Hstop).
      split_and!; [done| |done]. constructor; [by rewrite Hc|done].
    + intros [= <- <-]. by split_and!.
Qed.

Lemma digits_complete d r :
  Forall (λ c, is_Some (decimal c)) d → head r ≫= decimal = None →
  digits decimal (d ++ r) = (d, r).
Proof.
  intros Hall Hstop. induction Hall as [|c d [v Hc] _ IH]; simpl.
  - destruct r as [|c r]; [done|]. simpl in *. by rewrite Hstop.
  - by rewrite Hc, IH.
Qed.

Lemma digits1_sound s d r :
  digits1 decimal s = Some (d, r) →
  s = d ++ r ∧ number decimal d ∧ head r ≫= decimal = None.
Proof.
  unfold digits1. destruct (digits decimal s) as [d' r'] eqn:Hd.
  apply digits_sound in Hd as (-> & Hall & Hstop).
  destruct d' as [|c d']; [done|]. intros [= <- <-]. by split_and!.
Qed.

Lemma digits1_complete d r :
  number decimal d → head r ≫= decimal = None →
  digits1 decimal (d ++ r) = Some (d, r).
Proof.
  intros [Hne Hall] Hstop. unfold digits1.
  rewrite digits_complete by done. by destruct d.
Qed.

Lemma opt_count_sound s o r :
  opt_count decimal s = (o, r) →
  s = opt_field o ++ r ∧ (∀ d, o = Some d → number decimal d).
Proof.
  unfold opt_count. destruct s as [|c s]; [by intros [= <- <-]|].
  case_bool_decide as Hc; [|by intros [= <- <-]]. subst c.
  destruct (digits1 decimal s) as [[d r']|] eqn:Hd; [|by intros [= <- <-]].
  intros [= <- <-]. apply digits1_sound in Hd as (-> & Hnum & _).
  split; [done|]. by intros ? [= <-].
Qed.

(** Behind the optional field the pattern goes on with a space. *)
Lemma opt_count_complete o r :
  (∀ d, o = Some d → number decimal d) →
  opt_count decimal (opt_field o ++ 32 :: r) = (o, 32 :: r).
Proof.
  intros Hnum. destruct o as [d|]; simpl; [|done].
  rewrite digits1_complete; [done|by apply Hnum|].
  simpl. by rewrite decimal_ascii.
Qed.

Lemma opt_field_stop o r : head (opt_field o ++ 32 :: r) ≫= decimal = None.
Proof. destruct o; simpl; by rewrite decimal_ascii. Qed.

(** The matcher finds exactly the headers of the specification, with the
    new start and the new count as its groups. *)
Lemma hunk_re_match_spec line g1 g2 :
  hunk_re_match decimal line = Some (g1, g2) ↔ hunk_header decimal line g1 g2.
Proof.
  unfold hunk_re_match, hunk_header. split.
  - destruct (lit (Str "@@ -") line) as [r0|] eqn:H0; [simpl|done].
    destruct (digits1 decimal r0) as [[old r1]|] eqn:H1; [simpl|done].
    destruct (opt_count decimal r1) as [oc r2] eqn:H2.
    destruct (lit (Str " +") r2) as [r3|] eqn:H3; [simpl|done].
    destruct (digits1 decimal r3) as [[g1' r4]|] eqn:H4; [simpl|done].
    destruct (opt_count decimal r4) as [g2' r5] eqn:H5.
    destruct (lit (Str " @@") r5) as [r6|] eqn:H6; [simpl|done].
    intros [= <- <-].
    apply lit_Some in H0 as ->. apply digits1_sound in H1 as (-> & Hold & _).
    apply opt_count_sound in H2 as (-> & Hoc). apply lit_Some in H3 as ->.
    apply digits1_sound in H4 as (-> & Hnew & _).
    apply opt_count_sound in H5 as (-> & Hnc). apply lit_Some in H6 as ->.
    by exists old, oc, r6.
  - intros (old & oc & rest & -> & Hold & Hoc & Hnew & Hnc).
    rewrite (proj2 (lit_Some _ _ _) eq_refl). simpl.
    change (Str " +" ++ ?x) with (32 :: 43 :: x).
    change (Str " @@" ++ ?x) with (32 :: 64 :: 64 :: x).
    rewrite digits1_complete by (done || apply opt_field_stop). simpl.
    rewrite opt_count_complete by done.
    change (32 :: 43 :: ?x) with (Str " +" ++ x).
    rewrite (proj2 (lit_Some _ _ _) eq_refl). simpl.
    rewrite digits1_complete by (done || apply opt_field_stop). simpl.
    rewrite opt_count_complete by done.
    change (32 :: 64 :: 64 :: ?x) with (Str " @@" ++ x).
    by rewrite (proj2 (lit_Some _ _ _) eq_refl).
Qed.

Lemma elem_of_add_hunk (X : gset Z) line n :
  n ∈ add_hunk decimal X line ↔
  n ∈ X ∨ ∃ g1 g2, hunk_header decimal line g1 g2 ∧ in_new_range decimal g1 g2 n.
Proof.
  unfold add_hunk, in_new_range.
  destruct (hunk_re_match decimal line) as [[g1 g2]|] eqn:Hm.
  - rewrite elem_of_union, elem_of_list_to_set, elem_of_seqZ.
    apply hunk_re_match_spec in Hm. split.
    + intros [?|?]; [by left|right]. exists g1, g2. split; [done|]. simpl. lia.
    + intros [?|(g1' & g2' & Hh & Hr)]; [by left|right].
      apply hunk_re_match_spec in Hm, Hh. rewrite Hm in Hh.
      injection Hh as <- <-. simpl in Hr. lia.
  - split; [by left|]. intros [?|(g1 & g2 & Hh & _)]; [done|].
    apply hunk_re_match_spec in Hh. congruence.
Qed.

Lemma elem_of_fold_add_hunk lines (X : gset Z) n :
  n ∈ fold_left (add_hunk decimal) lines X ↔
  n ∈ X ∨ ∃ line g1 g2,
    line ∈ lines ∧ hunk_header decimal line g1 g2 ∧ in_new_range decimal g1 g2 n.
Proof.
  revert X. induction lines as [|line lines IH]; intros X; simpl.
  - split; [by left|]. intros [?|(line & ? & ? & Hin & _)]; [done|].
    by apply elem_of_nil in Hin.
  - rewrite IH, elem_of_add_hunk. split.
    + intros [[?|(g1 & g2 & ? & ?)]|(l & g1 & g2 & ? & ? & ?)].
      * by left.
      * right. exists line, g1, g2. split; [apply list_elem_of_here|done].
      * right. exists l, g1, g2. split; [by apply list_elem_of_further|done].
    + intros [?|(l & g1 & g2 & Hin & ? & ?)]; [by left; left|].
      apply elem_of_cons in Hin as [->|Hin].
      * left; right. by exists g1, g2.
      * right. by exists l, g1, g2.
Qed.

(** On ASCII text the matcher and [int] only look at ['0'..'9']. *)
Lemma agree_ascii s :
  forallb is_ascii s = true → Forall (λ c, decimal c = ascii_decimal c) s.
Proof.
  intros H. apply Forall_forall. intros c Hc.
  rewrite forallb_forall in H. apply list_elem_of_In, H in Hc.
  apply decimal_ascii. by apply bool_decide_eq_true in Hc.
Qed.

Lemma digits_agree s :
  Forall (λ c, decimal c = ascii_decimal c) s →
  digits decimal s = digits ascii_decimal s.
Proof.
  induction 1 as [|c s Hc _ IH]; simpl; [done|]. by rewrite Hc, IH.
Qed.

Lemma int_agree s :
  Forall (λ c, decimal c = ascii_decimal c) s →
  int decimal s = int ascii_decimal s.
Proof.
  unfold int. intros H.
  cut (∀ acc, fold_left (λ acc c, 10 * acc + default 0 (decimal c)) s acc =
              fold_left (λ acc c, 10 * acc + default 0 (ascii_decimal c)) s acc);
    [by intros ->|].
  induction H as [|c s Hc _ IH]; intros acc; simpl; [done|].
  by rewrite Hc, IH.
Qed.

Lemma digits1_agree s :
  Forall (λ c, decimal c = ascii_decimal c) s →
  digits1 decimal s = digits1 ascii_decimal s.
Proof. intros H. unfold digits1. by rewrite digits_agree. Qed.

Lemma opt_count_agree s :
  Forall (λ c, decimal c = ascii_decimal c) s →
  opt_count decimal s = opt_count ascii_decimal s.
Proof.
  intros H. unfold opt_count. destruct H as [|c s _ H]; [done|].
  by rewrite digits1_agree.
Qed.

Lemma hunk_re_match_agree line :
  Forall (λ c, decimal c = ascii_decimal c) line →
  hunk_re_match decimal line = hunk_re_match ascii_decimal line.
Proof.
  intros Hall. unfold hunk_re_match.
  destruct (lit (Str "@@ -") line) as [r0|] eqn:H0; simpl; [|done].
  apply lit_Some in H0 as ->. apply Forall_app in Hall as [_ Hall].
  rewrite <- (digits1_agree r0) by done.
  destruct (digits1 decimal r0) as [[old r1]|] eqn:H1; simpl; [|done].
  apply digits1_sound in H1 as (-> & _ & _). apply Forall_app in Hall as [_ Hall].
  rewrite <- (opt_count_agree r1) by done.
  destruct (opt_count decimal r1) as [oc r2] eqn:H2.
  apply opt_count_sound in H2 as (-> & _). apply Forall_app in Hall as [_ Hall].
  destruct (lit (Str " +") r2) as [r3|] eqn:H3; simpl; [|done].
  apply lit_Some in H3 as ->. apply Forall_app in Hall as [_ Hall].
  rewrite <- (digits1_agree r3) by done.
  destruct (digits1 decimal r3) as [[g1 r4]|] eqn:H4; simpl; [|done].
  apply digits1_sound in H4 as (-> & _ & _). apply Forall_app in Hall as [_ Hall].
  by rewrite <- (opt_count_agree r4).
Qed.

Lemma add_hunk_agree (X : gset Z) line :
  forallb is_ascii line = true →
  add_hunk decimal X line = add_hunk ascii_decimal X line.
Proof.
  intros Hall%agree_ascii. unfold add_hunk.
  rewrite <- hunk_re_match_agree by done.
  destruct (hunk_re_match decimal line) as [[g1 g2]|] eqn:Hm; [|done].
  apply hunk_re_match_spec in Hm as (old & oc & rest & -> & _).
  do 4 (apply Forall_app in Hall as [_ Hall]).
  apply Forall_app in Hall as [H1 Hall]. apply Forall_app in Hall as [H2 _].
  rewrite (int_agree g1) by done.
  destruct g2 as [d|]; [|done]. simpl in H2. apply Forall_cons in H2 as [_ H2].
  by rewrite (int_agree d).
Qed.

Lemma fold_add_hunk_agree lines (X : gset Z) :
  forallb (forallb is_ascii) lines = true →
  fold_left (add_hunk decimal) lines X = fold_left (add_hunk ascii_decimal) lines X.
Proof.
  revert X. induction lines as [|line lines IH]; intros X; simpl; [done|].
  intros [H1 H2]%andb_true_iff. by rewrite add_hunk_agree, IH.
Qed.

Lemma get_changed_lines_ok git_diff filename stdout stderr :
  git_diff filename = Exited 0 (Some stdout) (Some stderr) →
  get_changed_lines decimal git_diff filename =
  inr (fold_left (add_hunk decimal) (splitlines stdout) ∅).
Proof.
  intros H. unfold get_changed_lines, subprocess_run. rewrite H.
  by rewrite bool_decide_eq_true_2.
Qed.

(** With a diff command that succeeds, the result is read off the lines
    [splitlines] gives: a number is in it exactly when it lies in the
    new-side range of such a line that starts with a hunk header. *)
Lemma elem_of_changed_lines git_diff filename stdout X n :
  subprocess_run (git_diff filename) = inr stdout →
  get_changed_lines decimal git_diff filename = inr X →
  n ∈ X ↔
  ∃ line new_start new_count,
    line ∈ splitlines stdout ∧
    hunk_header decimal line new_start new_count ∧
    in_new_range decimal new_start new_count n.
Proof.
  intros Hrun. unfold get_changed_lines. rewrite Hrun. intros [= <-].
  rewrite elem_of_fold_add_hunk. split; [|by right].
  intros [H|H]; [|done]. by apply not_elem_of_empty in H.
Qed.

(** The headers of the examples: [@@ -10,3 +12,5 @@] gives
    [{12, 13, 14, 15, 16}], a header without counts, [@@ -7 +9 @@], [{9}]. *)
Lemma changed_lines_examples filename :
  get_changed_lines decimal (λ _, Exited 0 (Some example_diff) (Some [])) filename =
    inr {[12; 13; 14; 15; 16]} ∧
  get_changed_lines decimal (λ _, Exited 0 (Some (Str "@@ -10,3 +12,5 @@")) (Some []))
    filename = inr {[12; 13; 14; 15; 16]} ∧
  get_changed_lines decimal (λ _, Exited 0 (Some (Str "@@ -7 +9 @@")) (Some []))
    filename = inr {[9]}.
Proof.
  split_and!; rewrite (get_changed_lines_ok _ _ _ _ eq_refl); f_equal;
    rewrite fold_add_hunk_agree by (by vm_compute); by vm_compute.
Qed.

(** C3 fails on the code. The output of the diff command is cut with
    [splitlines], which ends a line at a form feed (and at VT, FS, GS, RS,
    NEL, U+2028 and U+2029) as well as at LF. In [form_feed_diff] the only
    line that is a hunk header is [@@ -0,0 +1 @@], so the set of the claim is
    [{1}]; the added line holds a form feed followed by [@@ -1 +99 @@ bar],
    the code takes what follows the form feed for a header and returns
    [{1, 99}]. *)
Theorem C3_form_feed_header git_diff filename :
  git_diff filename = Exited 0 (Some form_feed_diff) (Some []) →
  get_changed_lines decimal git_diff filename = inr {[1; 99]} ∧
  ∀ n,
    (∃ line new_start new_count,
        line ∈ diff_lines form_feed_diff ∧
        hunk_header decimal line new_start new_count ∧
        in_new_range decimal new_start new_count n) ↔
    n = 1.
Proof.
  intros Hrun. split.
  - rewrite (get_changed_lines_ok _ _ _ _ Hrun). f_equal.
    rewrite fold_add_hunk_agree by (by vm_compute). by vm_compute.
  - intros n.
    assert (fold_left (add_hunk decimal) (diff_lines form_feed_diff) ∅ = {[1]}) as Hone.
    { rewrite fold_add_hunk_agree by (by vm_compute). by vm_compute. }
    rewrite <- (elem_of_singleton (C := gset Z)), <- Hone, elem_of_fold_add_hunk.
    split; [by right|]. intros [H|H]; [|done]. by apply not_elem_of_empty in H.
Qed.

End HunkFacts.

Lemma C3_form_feed_header_witness :
  get_changed_lines ascii_decimal (λ _, Exited 0 (Some form_feed_diff) (Some [])) "notes.txt"
    = inr {[1; 99]} ∧
  ∀ n,
    (∃ line new_start new_count,
        line ∈ diff_lines form_feed_diff ∧
        hunk_header ascii_decimal line new_start new_count ∧
        in_new_range ascii_decimal new_start new_count n) ↔
    n = 1.
Proof.
  apply (C3_form_feed_header ascii_decimal (λ c _, eq_refl)
           (λ _, Exited 0 (Some form_feed_diff) (Some [])) "notes.txt").
  reflexivity.
Defined.

(** * Further properties of the code *)

(** ** What a rewritten line looks like *)

Section LineShape.

Implicit Types (line c body : bytes).

Lemma rstrip_with_fixed_iff p (l : bytes) :
  rstrip_with p l = l ↔ ∀ b, last l = Some b → p b = false.
Proof.
  split; [|apply rstrip_with_fixed].
  intros H b Hl. rewrite <- H in Hl. by apply rstrip_with_last in Hl.
Qed.

(** In front of a hard break that is taken there is visible text. *)
Lemma hard_break_visible body :
  forallb Py_ISSPACE (body ++ TWO_SPACES) = false →
  ∃ b, last (rstrip None body) = Some b ∧ Py_ISSPACE b = false.
Proof.
  intros Hws. destruct (last (rstrip None body)) as [b|] eqn:Hl.
  - exists b. split; [done|]. by apply (rstrip_with_last _ _ _ Hl).
  - apply last_None in Hl.
    destruct (rstrip_with_split Py_ISSPACE body) as (r & Hr & Hall).
    change (rstrip_with Py_ISSPACE body) with (rstrip None body) in Hr.
    rewrite Hl in Hr. simpl in Hr. subst r.
    by rewrite forallb_app, Hall in Hws.
Qed.

End LineShape.

(** X1: with the default strip characters no trailing whitespace is left in
    front of the end-of-line marker; in Markdown mode the one exception is a
    hard break: exactly two spaces directly behind a byte that is no
    whitespace. *)
Theorem X1_no_trailing_whitespace line is_markdown :
  ∃ new_content,
    _process_line line is_markdown None = new_content ++ (split_eol line).2 ∧
    ((∀ b, last new_content = Some b → Py_ISSPACE b = false) ∨
     (is_markdown = true ∧
      ∃ text b, new_content = text ++ TWO_SPACES ∧
                last text = Some b ∧ Py_ISSPACE b = false)).
Proof.
  exists (rewrite_content is_markdown None (split_eol line).1).
  split; [apply process_line_eq|].
  unfold rewrite_content. destruct (hard_break _ _) eqn:Hb.
  - right. apply hard_break_true in Hb as (-> & Hws & body & Hbody).
    rewrite Hbody in Hws |- *.
    split; [done|]. rewrite slice_to_neg_spaces.
    destruct (hard_break_visible body Hws) as (b & Hl & Hb).
    by exists (rstrip None body), b.
  - left. intros b Hl. by apply rstrip_with_last in Hl.
Qed.

(** X2: a line is left as it is exactly when the part that is stripped (the
    content, or what stands in front of a hard break that is taken) does not
    end in a strip character. *)
Theorem X2_unchanged_iff line is_markdown chars :
  _process_line line is_markdown chars = line ↔
  ∀ b,
    last (if hard_break is_markdown (split_eol line).1
          then slice_to_neg 2 (split_eol line).1 else (split_eol line).1) = Some b →
    in_chars chars b = false.
Proof.
  rewrite process_line_eq.
  assert (rewrite_content is_markdown chars (split_eol line).1 ++ (split_eol line).2 = line ↔
          rewrite_content is_markdown chars (split_eol line).1 = (split_eol line).1) as ->.
  { split.
    - intros H. apply (app_inv_tail (split_eol line).2). rewrite H. apply split_eol_app.
    - intros ->. symmetry. apply split_eol_app. }
  unfold rewrite_content. destruct (hard_break _ _) eqn:Hb.
  - apply hard_break_true in Hb as (_ & _ & body & Hbody). rewrite Hbody.
    rewrite slice_to_neg_spaces, <- rstrip_with_fixed_iff. unfold rstrip. split.
    + by intros H%app_inv_tail.
    + by intros ->.
  - by rewrite <- rstrip_with_fixed_iff.
Qed.

Lemma X2_unchanged_iff_witness :
  _process_line (B "a b" ++ CRLF) true None = B "a b" ++ CRLF.
Proof.
  apply (X2_unchanged_iff (B "a b" ++ CRLF) true None).
  vm_compute. intros b H. injection H as <-. reflexivity.
Defined.

(** ** The loop: every line, and the flag *)

(** X3: without a restriction set every line is rewritten, in order, and the
    flag is raised exactly when some line differs from its rewrite. *)
Theorem X3_unrestricted lines is_markdown chars :
  (fix_lines None is_markdown chars lines).1 =
    (λ line, _process_line line is_markdown chars) <$> lines ∧
  ((fix_lines None is_markdown chars lines).2 = true ↔
   ∃ line, line ∈ lines ∧ _process_line line is_markdown chars ≠ line).
Proof.
  rewrite fix_lines_all. simpl. split; [done|].
  rewrite existsb_exists. split.
  - intros (line & Hin & Hne). exists line.
    split; [by apply list_elem_of_In|]. by apply bool_decide_eq_true in Hne.
  - intros (line & Hin & Hne). exists line.
    split; [by apply list_elem_of_In|]. by apply bool_decide_eq_true.
Qed.

(** X4: for every restriction the flag is exact: it is raised exactly when
    the list of lines that comes out differs from the one that went in. *)
Theorem X4_flag_exact changed_lines is_markdown chars lines :
  (fix_lines changed_lines is_markdown chars lines).2 = true ↔
  (fix_lines changed_lines is_markdown chars lines).1 ≠ lines.
Proof.
  split.
  - intros (n & line & Hl & Hs & Hne)%fix_lines_changed Heq.
    pose proof (fix_lines_lookup changed_lines is_markdown chars lines n line Hl) as Ho.
    rewrite Heq, Hl, Hs in Ho. congruence.
  - intros Hne. destruct (fix_lines _ _ _ _).2 eqn:Hflag; [done|].
    exfalso. apply Hne. apply list_eq. intros n.
    destruct (lines !! n) as [line|] eqn:Hl.
    + rewrite (fix_lines_lookup _ _ _ _ _ _ Hl).
      destruct (selected changed_lines (Z.of_nat n + 1)) eqn:Hs; [|done].
      f_equal. destruct (decide (_process_line line is_markdown chars = line)); [done|].
      assert ((fix_lines changed_lines is_markdown chars lines).2 = true); [|congruence].
      apply fix_lines_changed. by exists n, line.
    + apply lookup_ge_None. rewrite fix_lines_length. by apply lookup_ge_None.
Qed.

(** X5: a restriction set that holds the number of every line of the file
    restricts nothing. *)
Theorem X5_full_restriction (s : gset Z) is_markdown chars lines :
  (∀ i, 1 ≤ i ≤ Z.of_nat (length lines) → i ∈ s) →
  fix_lines (Some s) is_markdown chars lines = fix_lines None is_markdown chars lines.
Proof.
  intros Hall.
  assert (∀ n line, lines !! n = Some line → selected (Some s) (Z.of_nat n + 1) = true) as Hsel.
  { intros n line Hl. apply bool_decide_eq_true, Hall.
    apply lookup_lt_Some in Hl. lia. }
  apply injective_projections.
  - apply list_eq. intros n. destruct (lines !! n) as [line|] eqn:Hl.
    + rewrite !(fix_lines_lookup _ _ _ _ _ _ Hl). by rewrite (Hsel n line).
    + transitivity (@None bytes); [|symmetry];
        apply lookup_ge_None; rewrite fix_lines_length; by apply lookup_ge_None.
  - apply eq_true_iff_eq. rewrite !fix_lines_changed. split.
    + intros (n & line & Hl & _ & Hne). by exists n, line.
    + intros (n & line & Hl & _ & Hne). exists n, line. eauto.
Qed.

Lemma X5_full_restriction_witness :
  fix_lines (Some {[1; 2]}) false None [B "a " ++ NL; B "b"] =
  fix_lines None false None [B "a " ++ NL; B "b"].
Proof.
  apply (X5_full_restriction {[1; 2]} false None [B "a " ++ NL; B "b"]).
  simpl. intros i Hi.
  assert (i = 1 ∨ i = 2) as [-> | ->] by lia; apply (bool_decide_unpack _); vm_compute; exact I.
Defined.

(** ** Reading a file into lines and writing the lines back *)

Section Readlines.

Implicit Types (cur data k line : bytes) (lines : list bytes).

Lemma readlines_from_concat cur data : concat (readlines_from cur data) = cur ++ data.
Proof.
  revert cur. induction data as [|b data IH]; intros cur; simpl.
  - destruct cur; simpl; by rewrite ?app_nil_r.
  - case_bool_decide; simpl; rewrite IH; by rewrite <- app_assoc.
Qed.

Lemma readlines_from_skip cur k data :
  LF ∉ k → readlines_from cur (k ++ data) = readlines_from (cur ++ k) data.
Proof.
  revert cur. induction k as [|b k IH]; intros cur Hk; simpl.
  - by rewrite app_nil_r.
  - apply not_elem_of_cons in Hk as [Hb Hk].
    rewrite bool_decide_eq_false_2 by done. rewrite IH by done.
    by rewrite <- app_assoc.
Qed.

Lemma readlines_from_line k data :
  LF ∉ k → readlines_from [] ((k ++ NL) ++ data) = (k ++ NL) :: readlines_from [] data.
Proof.
  intros Hk. rewrite <- app_assoc, readlines_from_skip by done.
  change (NL ++ data) with (LF :: data). by simpl.
Qed.

Lemma well_split_cons line lines :
  well_split (line :: lines) ↔
  (lines = [] ∧ line ≠ [] ∧ LF ∉ slice_to_neg 1 line) ∨
  (lines ≠ [] ∧ (∃ k, line = k ++ NL ∧ LF ∉ k) ∧ well_split lines).
Proof.
  destruct lines as [|l ls]; simpl; split.
  - intros [? ?]. by left.
  - intros [(_ & ? & ?)|(? & _)]; done.
  - intros [? ?]. by right.
  - intros [(? & _)|(_ & ? & ?)]; done.
Qed.

Lemma readlines_from_well_split cur data :
  LF ∉ cur → well_split (readlines_from cur data).
Proof.
  revert cur. induction data as [|b data IH]; intros cur Hcur; simpl.
  - destruct cur as [|c cur]; [done|]. simpl. split; [done|].
    intros Hin. apply Hcur. unfold slice_to_neg in Hin.
    by apply elem_of_take in Hin as (i & Hi & _); apply list_elem_of_lookup_2 in Hi.
  - case_bool_decide as Hb.
    + subst b. apply well_split_cons.
      destruct (readlines_from [] data) as [|l ls] eqn:Hr.
      * left. split_and!; [done|by destruct cur|].
        change (cur ++ [LF]) with (cur ++ NL). by rewrite slice_to_neg_nl.
      * right. split_and!; [done|by exists cur|].
        rewrite <- Hr. apply IH. apply not_elem_of_nil.
    + apply IH. rewrite elem_of_app, list_elem_of_singleton. by intros [?|?].
Qed.

Lemma readlines_of_concat lines : well_split lines → readlines (concat lines) = lines.
Proof.
  unfold readlines. induction lines as [|line lines IH]; [done|].
  intros [(-> & Hne & Hinit)|(Hrest & (k & -> & Hk) & Hws)]%well_split_cons.
  - simpl. rewrite app_nil_r.
    destruct line as [|b line _] using rev_ind; [done|].
    assert (slice_to_neg 1 (line ++ [b]) = line) as Hs
      by exact (slice_to_neg_app line [b]).
    rewrite Hs in Hinit.
    destruct (decide (b = LF)) as [->|Hb].
    + pose proof (readlines_from_line line [] Hinit) as Hr.
      by rewrite app_nil_r in Hr.
    + assert (LF ∉ line ++ [b]) as Hnot.
      { rewrite elem_of_app, list_elem_of_singleton. by intros [?|?]. }
      pose proof (readlines_from_skip [] (line ++ [b]) [] Hnot) as Hr.
      rewrite app_nil_r in Hr. rewrite Hr. simpl. by destruct line.
  - simpl. rewrite readlines_from_line by done. by rewrite IH.
Qed.

End Readlines.

(** X6: the lines [readlines] cuts a file into are a well-split list whose
    concatenation is the file, and a well-split list is read back as it is
    from its concatenation: [writelines] of unchanged lines restores the
    bytes, and the lines written are the lines the next run reads. *)
Theorem X6_readlines_roundtrip :
  (∀ data, concat (readlines data) = data ∧ well_split (readlines data)) ∧
  (∀ lines, well_split lines → readlines (concat lines) = lines).
Proof.
  split.
  - intros data. split; [apply (readlines_from_concat [] data)|].
    apply readlines_from_well_split, not_elem_of_nil.
  - apply readlines_of_concat.
Qed.

Lemma X6_readlines_roundtrip_witness :
  readlines (concat [B "a " ++ NL; NL; B "b"]) = [B "a " ++ NL; NL; B "b"].
Proof.
  apply (proj2 X6_readlines_roundtrip [B "a " ++ NL; NL; B "b"]).
  simpl. split_and!.
  - exists (B "a "). split; [reflexivity|]. apply (bool_decide_unpack _). vm_compute. exact I.
  - exists []. split; [reflexivity|]. apply not_elem_of_nil.
  - discriminate.
  - apply (bool_decide_unpack _). vm_compute. exact I.
Defined.

(** ** The file as a whole *)

Section FileFacts.

Implicit Types (line c k : bytes) (lines : list bytes) (chars : option bytes).

Lemma process_line_length line is_markdown chars :
  (length (_process_line line is_markdown chars) ≤ length line)%nat ∧
  (_process_line line is_markdown chars ≠ line →
   (length (_process_line line is_markdown chars) < length line)%nat).
Proof.
  destruct (rewrite_content_shape is_markdown chars (split_eol line).1)
    as (kept & removed & Hc & _ & _ & Hout).
  rewrite process_line_eq, Hout.
  pose proof (split_eol_app line) as Hline. rewrite Hc in Hline.
  revert Hline. clear Hc Hout.
  generalize (kept_tail is_markdown (split_eol line).1) (split_eol line).2.
  intros tail eol ->. rewrite !length_app. split; [lia|].
  intros Hne. destruct removed as [|b removed]; [done|]. simpl. lia.
Qed.

Lemma rewritten_length changed_lines is_markdown chars (x : Z * bytes) :
  (length (rewritten changed_lines is_markdown chars x) ≤ length x.2)%nat ∧
  (differs changed_lines is_markdown chars x = true →
   (length (rewritten changed_lines is_markdown chars x) < length x.2)%nat).
Proof.
  unfold rewritten, differs. destruct (selected changed_lines x.1); simpl; [|done].
  rewrite bool_decide_eq_true. apply process_line_length.
Qed.

Lemma rewritten_concat_length changed_lines is_markdown chars (xs : list (Z * bytes)) :
  (length (concat (rewritten changed_lines is_markdown chars <$> xs))
   ≤ length (concat xs.*2))%nat ∧
  (existsb (differs changed_lines is_markdown chars) xs = true →
   (length (concat (rewritten changed_lines is_markdown chars <$> xs))
    < length (concat xs.*2))%nat).
Proof.
  induction xs as [|x xs [IH1 IH2]]; [done|].
  rewrite !fmap_cons. cbn [concat existsb]. rewrite !length_app.
  destruct (rewritten_length changed_lines is_markdown chars x) as [H1 H2].
  split; [lia|]. intros [Hd|Hd]%orb_true_iff.
  - specialize (H2 Hd). lia.
  - specialize (IH2 Hd). lia.
Qed.

Lemma fix_lines_concat_length changed_lines is_markdown chars lines :
  (length (concat (fix_lines changed_lines is_markdown chars lines).1)
   ≤ length (concat lines))%nat ∧
  ((fix_lines changed_lines is_markdown chars lines).2 = true →
   (length (concat (fix_lines changed_lines is_markdown chars lines).1)
    < length (concat lines))%nat).
Proof.
  rewrite fix_lines_eq. cbn [fst snd].
  pose proof (rewritten_concat_length changed_lines is_markdown chars (enumerate 1 lines)) as H.
  by rewrite enumerate_snd in H.
Qed.

(** The part of [_fix_file] behind the choice of [changed_lines]. *)
Lemma fix_file_body changed_lines filename is_markdown chars w w' (fixed : bool) :
  match files w !! filename with
  | None => inl FileNotFoundError
  | Some data =>
      let '(new_lines, changed) :=
        fix_lines changed_lines is_markdown chars (readlines data) in
      if changed then inr (writelines filename new_lines w, true) else inr (w, false)
  end = inr (w', fixed) →
  ∃ data,
    files w !! filename = Some data ∧
    fixed = (fix_lines changed_lines is_markdown chars (readlines data)).2 ∧
    w' = if fixed
         then writelines filename
                (fix_lines changed_lines is_markdown chars (readlines data)).1 w
         else w.
Proof.
  destruct (files w !! filename) as [data|]; [|done].
  destruct (fix_lines changed_lines is_markdown chars (readlines data))
    as [new_lines changed] eqn:Hfix.
  destruct changed; intros [= <- <-]; exists data; by rewrite Hfix.
Qed.

End FileFacts.

(** X7: a call of [_fix_file] that returns [False] leaves the world as it
    was; one that returns [True] has written the named file once, no other
    file, and the file is now strictly shorter than it was. *)
Theorem X7_fix_file_effect decimal git_diff filename is_markdown chars changed_only
    w w' (fixed : bool) :
  _fix_file decimal git_diff filename is_markdown chars changed_only w = inr (w', fixed) →
  if fixed then
    ∃ old new,
      files w !! filename = Some old ∧
      w' = World (<[filename := new]> (files w)) ((filename, new) :: written w) ∧
      (length new < length old)%nat
  else w' = w.
Proof.
  intros Hrun.
  assert (fixed = false ∧ w' = w ∨
          ∃ cl data,
            files w !! filename = Some data ∧
            fixed = (fix_lines cl is_markdown chars (readlines data)).2 ∧
            w' = if fixed
                 then writelines filename
                        (fix_lines cl is_markdown chars (readlines data)).1 w
                 else w) as [[-> ->]|(cl & data & Hf & Hfixed & Hw)]; [|done|].
  { unfold _fix_file in Hrun. destruct changed_only.
    - destruct (get_changed_lines decimal git_diff filename) as [e|cl]; [done|].
      case_bool_decide.
      + left. by injection Hrun as <- <-.
      + right. eexists. by apply fix_file_body.
    - right. eexists. by apply fix_file_body. }
  destruct fixed; [|done].
  exists data, (concat (fix_lines cl is_markdown chars (readlines data)).1).
  split_and!; [done..|].
  destruct (fix_lines_concat_length cl is_markdown chars (readlines data)) as [_ Hlt].
  change (concat (readlines data)) with ([] ++ concat (readlines_from [] data)) in Hlt.
  rewrite readlines_from_concat in Hlt. by apply Hlt.
Qed.

Lemma X7_fix_file_effect_witness :
  let w := World {["README.md" := B "a  " ++ NL ++ B "b"]} [] in
  let w' := World {["README.md" := B "a" ++ NL ++ B "b"]}
                  [("README.md", B "a" ++ NL ++ B "b")] in
  ∃ old new,
    files w !! "README.md" = Some old ∧
    w' = World (<["README.md" := new]> (files w)) (("README.md", new) :: written w) ∧
    (length new < length old)%nat.
Proof.
  intros w w'.
  apply (X7_fix_file_effect ascii_decimal (λ _, Exited 0 (Some []) (Some [])) "README.md"
           false None false w w' true).
  by vm_compute.
Defined.

(** X8: when the named file does not exist, [_fix_file] raises
    [FileNotFoundError], except in changed-lines-only mode with an empty
    changed-line set, where it returns [False] without opening the file (and
    except where the extractor itself raises, which passes through); the
    world is never changed. *)
Theorem X8_missing_file decimal git_diff filename is_markdown chars changed_only w :
  files w !! filename = None →
  _fix_file decimal git_diff filename is_markdown chars changed_only w =
  if changed_only then
    match get_changed_lines decimal git_diff filename with
    | inl e => inl e
    | inr changed_lines =>
        if bool_decide (changed_lines = ∅) then inr (w, false)
        else inl FileNotFoundError
    end
  else inl FileNotFoundError.
Proof.
  intros Hf. unfold _fix_file. by rewrite Hf.
Qed.

Lemma X8_missing_file_witness :
  _fix_file ascii_decimal (λ _, Exited 0 (Some example_diff) (Some [])) "README.md"
    true None true (World ∅ []) = inl FileNotFoundError.
Proof.
  rewrite (X8_missing_file ascii_decimal (λ _, Exited 0 (Some example_diff) (Some []))
             "README.md" true None true (World ∅ [])); reflexivity.
Defined.

(** X9: in changed-lines-only mode a file is left alone ([_fix_file] returns
    [False], the world is as before) when the output of its diff command
    decodes and the command either exits with a non-zero code or prints no
    line that matches the hunk pattern. *)
Theorem X9_nothing_staged decimal git_diff filename is_markdown chars w
    returncode stdout stderr :
  git_diff filename = Exited returncode (Some stdout) (Some stderr) →
  returncode ≠ 0 ∨
  (∀ line, line ∈ splitlines stdout → hunk_re_match decimal line = None) →
  _fix_file decimal git_diff filename is_markdown chars true w = inr (w, false).
Proof.
  intros Hrun H.
  assert (get_changed_lines decimal git_diff filename = inr ∅) as Hempty.
  { unfold get_changed_lines, subprocess_run. rewrite Hrun.
    case_bool_decide as Hcode; [|done]. destruct H as [?|Hnone]; [done|]. f_equal.
    induction (splitlines stdout) as [|line lines IH]; [done|]. simpl.
    unfold add_hunk at 2. rewrite Hnone by apply list_elem_of_here.
    apply IH. intros l Hl. apply Hnone. by apply list_elem_of_further. }
  unfold _fix_file. rewrite Hempty. by rewrite bool_decide_eq_true_2.
Qed.

Lemma X9_nothing_staged_witness :
  let w := World {["README.md" := B "a  " ++ NL]} [] in
  _fix_file ascii_decimal (λ _, Exited 0 (Some (Str "+@@ -1 +1 @@" ++ [10])) (Some []))
    "README.md" false None true w = inr (w, false).
Proof.
  apply (X9_nothing_staged ascii_decimal
           (λ _, Exited 0 (Some (Str "+@@ -1 +1 @@" ++ [10])) (Some []))
           "README.md" false None _ 0 (Str "+@@ -1 +1 @@" ++ [10]) []); [reflexivity|].
  right.
  intros line Hin. vm_compute in Hin. apply list_elem_of_singleton in Hin. subst line.
  reflexivity.
Defined.

(** ** Running the hook on a file it has fixed *)

Section SecondRun.

Implicit Types (line c k : bytes) (lines : list bytes) (chars : option bytes).

Lemma rewrite_content_elem is_markdown chars c b :
  b ∈ rewrite_content is_markdown chars c → b ∈ c.
Proof.
  destruct (rewrite_content_shape is_markdown chars c)
    as (kept & removed & Hc & _ & _ & ->).
  revert Hc. generalize (kept_tail is_markdown c). intros tail ->.
  rewrite !elem_of_app. tauto.
Qed.

Lemma process_line_elem line is_markdown chars b :
  b ∈ _process_line line is_markdown chars → b ∈ line.
Proof.
  rewrite process_line_eq. rewrite (split_eol_app line) at 3.
  rewrite !elem_of_app. intros [H|H]; [left|by right].
  by apply rewrite_content_elem in H.
Qed.

(** A line that ends in its only LF is rewritten to such a line. *)
Lemma process_terminated is_markdown chars k :
  LF ∉ k →
  ∃ k', _process_line (k ++ NL) is_markdown chars = k' ++ NL ∧ LF ∉ k'.
Proof.
  intros Hk. rewrite process_line_eq.
  destruct (split_eol_cases (k ++ NL)) as [(c & Hc & ->)|[(c & Hc & _ & ->)|[Hl _]]]; simpl.
  - change (c ++ CRLF) with (c ++ [CR] ++ NL) in Hc. rewrite app_assoc in Hc.
    apply app_inj_tail in Hc as [-> _].
    exists (rewrite_content is_markdown chars c ++ [CR]). split.
    + change CRLF with ([CR] ++ NL). by rewrite app_assoc.
    + rewrite elem_of_app, list_elem_of_singleton. intros [H|H]; [|done].
      apply rewrite_content_elem in H. apply Hk. rewrite elem_of_app. by left.
  - apply app_inj_tail in Hc as [-> _].
    exists (rewrite_content is_markdown chars c). split; [done|].
    intros H. by apply rewrite_content_elem in H.
  - change (k ++ NL) with (k ++ [LF]) in Hl. by rewrite last_snoc in Hl.
Qed.

Lemma well_split_terminated k lines :
  LF ∉ k → well_split lines → well_split ((k ++ NL) :: lines).
Proof.
  intros Hk Hws. apply well_split_cons. destruct lines as [|l ls].
  - left. split_and!; [done|by destruct k|]. by rewrite slice_to_neg_nl.
  - right. split_and!; [done|by exists k|done].
Qed.

Lemma well_split_single line : line ≠ [] → LF ∉ line → well_split [line].
Proof.
  intros Hne Hline. split; [done|]. intros Hin. apply Hline.
  unfold slice_to_neg in Hin.
  apply elem_of_take in Hin as (i & Hi & _). by apply list_elem_of_lookup_2 in Hi.
Qed.

(** The rewritten lines of a file, without an emptied last line, are again
    the lines of a file. *)
Lemma well_split_processed is_markdown chars lines :
  well_split lines →
  well_split (filter (λ l : bytes, l ≠ [])
                ((λ line, _process_line line is_markdown chars) <$> lines)).
Proof.
  induction lines as [|line lines IH]; [done|].
  intros [(-> & Hne & Hinit)|(Hrest & (k & -> & Hk) & Hws)]%well_split_cons.
  - rewrite fmap_cons, fmap_nil.
    destruct line as [|b line _] using rev_ind; [done|].
    assert (slice_to_neg 1 (line ++ [b]) = line) as Hs
      by exact (slice_to_neg_app line [b]).
    rewrite Hs in Hinit. destruct (decide (b = LF)) as [->|Hb].
    + destruct (process_terminated is_markdown chars line Hinit) as (k' & Hk' & HLF).
      change (line ++ [LF]) with (line ++ NL). rewrite Hk'.
      rewrite filter_cons_True by (by destruct k'). rewrite filter_nil.
      by apply well_split_terminated.
    + assert (LF ∉ _process_line (line ++ [b]) is_markdown chars) as HLF.
      { intros H%process_line_elem. revert H.
        rewrite elem_of_app, list_elem_of_singleton. by intros [?|?]. }
      destruct (decide (_process_line (line ++ [b]) is_markdown chars = [])) as [He|He].
      * by rewrite filter_cons_False, filter_nil by (by intros ?).
      * rewrite filter_cons_True, filter_nil by done. by apply well_split_single.
  - rewrite fmap_cons.
    destruct (process_terminated is_markdown chars k Hk) as (k' & -> & HLF).
    rewrite filter_cons_True by (by destruct k').
    apply well_split_terminated; [done|]. by apply IH.
Qed.

Lemma concat_filter_nonempty (ls : list bytes) :
  concat (filter (λ l : bytes, l ≠ []) ls) = concat ls.
Proof.
  induction ls as [|l ls IH]; [done|]. destruct (decide (l = [])) as [->|Hne].
  - by rewrite filter_cons_False by (by intros ?).
  - rewrite filter_cons_True by done. simpl. by rewrite IH.
Qed.

Lemma fix_lines_fixed is_markdown chars lines :
  (∀ line, line ∈ lines → _process_line line is_markdown chars = line) →
  fix_lines None is_markdown chars lines = (lines, false).
Proof.
  intros Hfix. rewrite fix_lines_all. f_equal.
  - induction lines as [|line lines IH]; [done|].
    rewrite fmap_cons, Hfix by apply list_elem_of_here. f_equal.
    apply IH. intros l Hl. apply Hfix. by apply list_elem_of_further.
  - induction lines as [|line lines IH]; [done|]. simpl.
    rewrite bool_decide_eq_false_2.
    + apply IH. intros l Hl. apply Hfix. by apply list_elem_of_further.
    + intros Hne. apply Hne, Hfix, list_elem_of_here.
Qed.

End SecondRun.

(** X10: a second run on the same file finds nothing to do. For the default
    strip characters (Markdown or not), and outside Markdown mode for an
    explicit set that holds CR and LF: after a call of [_fix_file] without
    the changed-lines restriction has returned, the same call on the world
    it left returns [False] and writes nothing. *)
Theorem X10_second_run decimal git_diff filename is_markdown chars w w' (fixed : bool) :
  chars = None ∨
  (is_markdown = false ∧ ∃ cs, chars = Some cs ∧ CR ∈ cs ∧ LF ∈ cs) →
  _fix_file decimal git_diff filename is_markdown chars false w = inr (w', fixed) →
  _fix_file decimal git_diff filename is_markdown chars false w' = inr (w', false).
Proof.
  intros Hcase Hrun.
  assert (∀ line, _process_line (_process_line line is_markdown chars) is_markdown chars =
                  _process_line line is_markdown chars) as Hidem.
  { intros line. apply process_line_idem.
    destruct Hcase as [->|(-> & cs & -> & Hcr & Hlf)]; [by left|right].
    simpl. by rewrite !bool_decide_eq_true. }
  unfold _fix_file in Hrun. apply fix_file_body in Hrun as (data & Hf & Hfixed & ->).
  unfold _fix_file. destruct fixed.
  - rewrite (fix_lines_all is_markdown chars (readlines data)). cbn [fst].
    set (out := (λ line, _process_line line is_markdown chars) <$> readlines data).
    unfold writelines at 1. cbn [files]. rewrite lookup_insert_eq.
    rewrite <- (concat_filter_nonempty out), readlines_of_concat.
    + rewrite fix_lines_fixed; [done|].
      intros line [_ Hin]%list_elem_of_filter.
      apply list_elem_of_fmap in Hin as (l & -> & _). apply Hidem.
    + apply well_split_processed, readlines_from_well_split, not_elem_of_nil.
  - rewrite Hf. destruct (fix_lines None is_markdown chars (readlines data)) as [nl ch].
    simpl in Hfixed. by subst ch.
Qed.

Lemma X10_second_run_witness :
  let w := World {["README.md" := B "a  " ++ CRLF ++ B "b " ++ NL ++ B "  "]} [] in
  let w' := World {["README.md" := B "a  " ++ CRLF ++ B "b" ++ NL]}
                  [("README.md", B "a  " ++ CRLF ++ B "b" ++ NL)] in
  _fix_file ascii_decimal (λ _, Exited 1 (Some []) (Some [])) "README.md" true None false w' =
  inr (w', false).
Proof.
  intros w w'.
  apply (X10_second_run ascii_decimal (λ _, Exited 1 (Some []) (Some [])) "README.md" true None
           w w' true).
  - left. reflexivity.
  - by vm_compute.
Defined.

(** ** Diffs that select no line *)

Section MoreHunks.

Variable decimal : Z → option Z.
Hypothesis decimal_ascii : ∀ c, 0 ≤ c < 128 → decimal c = ascii_decimal c.



(** X12: the pattern is anchored at the start of the line only: whatever
    follows the closing [@@] of a header (git puts the enclosing section
    there) does not change the match. *)
Theorem X12_header_suffix_ignored line extra groups :
  hunk_re_match decimal line = Some groups →
  hunk_re_match decimal (line ++ extra) = Some groups.
Proof.
  destruct groups as [g1 g2]. rewrite !hunk_re_match_spec by done.
  intros (old & oc & rest & -> & Hrest). exists old, oc, (rest ++ extra).
  split; [|done]. by rewrite <- !app_assoc.
Qed.

(** Where LF is the only line boundary in a text, [splitlines] cuts it into
    the lines of the diff. *)
Lemma splitlines_from_diff_lines (cur s : str) :
  (∀ c, c ∈ s → is_linebreak c = true → c = 10) →
  splitlines_from cur s = diff_lines_from cur s.
Proof.
  revert cur. induction s as [|c s IH]; intros cur Hlf; [done|]. simpl.
  assert (∀ c', c' ∈ s → is_linebreak c' = true → c' = 10) as Hlf'.
  { intros c' Hc'. apply Hlf. by apply list_elem_of_further. }
  destruct (is_linebreak c) eqn:Hlb.
  - rewrite (Hlf c (list_elem_of_here _ _) Hlb). simpl.
    f_equal. destruct s; by apply IH.
  - rewrite bool_decide_eq_false_2; [by apply IH|]. by intros ->.
Qed.

(** X13: when the diff command succeeds and its output has no line boundary
    of [splitlines] but LF (no VT, FF, CR, FS, GS, RS, NEL, U+2028 or
    U+2029), the result is exactly the union of the new-side ranges of the
    lines of the diff that start with a hunk header; the other lines, the
    content lines among them, add nothing. *)
Theorem X13_lf_only_diff git_diff filename stdout :
  subprocess_run (git_diff filename) = inr stdout →
  (∀ c, c ∈ stdout → is_linebreak c = true → c = 10) →
  ∃ X,
    get_changed_lines decimal git_diff filename = inr X ∧
    ∀ n, n ∈ X ↔
         ∃ line new_start new_count,
           line ∈ diff_lines stdout ∧
           hunk_header decimal line new_start new_count ∧
           in_new_range decimal new_start new_count n.
Proof.
  intros Hrun Hlf. unfold get_changed_lines. rewrite Hrun. eexists. split; [done|].
  intros n. unfold splitlines, diff_lines.
  rewrite splitlines_from_diff_lines, elem_of_fold_add_hunk by done.
  split; [|by right]. intros [H|H]; [|done]. by apply not_elem_of_empty in H.
Qed.

End MoreHunks.


Lemma X12_header_suffix_ignored_witness :
  hunk_re_match ascii_decimal (Str "@@ -10,3 +12,5 @@" ++ Str " def main():") =
  Some (Str "12", Some (Str "5")).
Proof.
  apply (X12_header_suffix_ignored ascii_decimal (λ c _, eq_refl)
           (Str "@@ -10,3 +12,5 @@") (Str " def main():")).
  reflexivity.
Defined.

Lemma X13_lf_only_diff_witness :
  ∃ X,
    get_changed_lines ascii_decimal (λ _, Exited 0 (Some example_diff) (Some [])) "README.md"
      = inr X ∧
    ∀ n, n ∈ X ↔
         ∃ line new_start new_count,
           line ∈ diff_lines example_diff ∧
           hunk_header ascii_decimal line new_start new_count ∧
           in_new_range ascii_decimal new_start new_count n.
Proof.
  apply (X13_lf_only_diff ascii_decimal (λ c _, eq_refl)
           (λ _, Exited 0 (Some example_diff) (Some [])) "README.md" example_diff);
    [reflexivity|].
  intros c Hc Hlb.
  assert (forallb (λ c, negb (is_linebreak c) || bool_decide (c = 10)) example_diff = true)
    as Hall by (by vm_compute).
  rewrite forallb_forall in Hall. apply list_elem_of_In, Hall in Hc.
  rewrite Hlb in Hc. by apply bool_decide_eq_true in Hc.
Defined.

(** ** The command line driver *)

Section MainFacts.

Variable decimal : Z → option Z.
Variable git_diff : string → child.
Variable lower : string → string.
Variable splitext : string → string * string.

Implicit Types (w : world) (out : list string) (fns : list string).

(** The two ways a call of [_fix_file] returns. *)
Lemma fix_file_cases filename is_markdown chars changed_only w w' (fixed : bool) :
  _fix_file decimal git_diff filename is_markdown chars changed_only w = inr (w', fixed) →
  (fixed = false ∧ w' = w) ∨
  (fixed = true ∧ is_Some (files w !! filename) ∧
   ∃ new, w' = World (<[filename := new]> (files w)) ((filename, new) :: written w)).
Proof.
  intros Hrun.
  assert (fixed = false ∧ w' = w ∨
          ∃ cl data,
            files w !! filename = Some data ∧
            fixed = (fix_lines cl is_markdown chars (readlines data)).2 ∧
            w' = if fixed
                 then writelines filename
                        (fix_lines cl is_markdown chars (readlines data)).1 w
                 else w) as [?|(cl & data & Hf & Hfixed & Hw)]; [|by left|].
  { unfold _fix_file in Hrun. destruct changed_only.
    - destruct (get_changed_lines decimal git_diff filename) as [e|cl]; [done|].
      case_bool_decide.
      + left. by injection Hrun as <- <-.
      + right. eexists. by apply fix_file_body.
    - right. eexists. by apply fix_file_body. }
  destruct fixed; [right|by left].
  split_and!; [done|by rewrite Hf|by eexists].
Qed.



(** What the loop over the file names keeps: the writes it adds to the log
    are announced one by one, in order; they are writes to named files;
    other files stay as they are and no file disappears. *)
Lemma main_loop_inv all_md md_exts chars changed_only fns w out rc w' out' res :
  main_loop decimal git_diff lower splitext all_md md_exts chars changed_only fns w out rc
  = (w', out', res) →
  ∃ new : list (string * bytes),
    written w' = reverse new ++ written w ∧
    out' = out ++ ((λ x, "Fixing " +:+ x.1) <$> new) ∧
    (∀ x, x ∈ new → x.1 ∈ fns) ∧
    (∀ g, g ∉ fns → files w' !! g = files w !! g) ∧
    (∀ g, is_Some (files w !! g) → is_Some (files w' !! g)) ∧
    (new = [] → w' = w) ∧
    (∀ code, res = inr code → code = if bool_decide (new = []) then rc else 1).
Proof.
  revert w out rc. induction fns as [|f fns IH]; intros w out rc; simpl.
  - intros [= <- <- <-]. exists []. rewrite app_nil_r.
    split_and!; try done.
    + by intros x Hx%elem_of_nil.
    + by intros code [= <-].
  - destruct (_fix_file _ _ _ _ _ _ _) as [e|[w1 fixed]] eqn:Hfix.
    { intros [= <- <- <-]. exists []. rewrite app_nil_r.
      split_and!; try done. by intros x Hx%elem_of_nil. }
    apply fix_file_cases in Hfix as [[-> ->]|(-> & Hex & new & ->)].
    + intros (nw & Hw & Ho & Hin & Hframe & Hkeep & Hnil & Hcode)%IH.
      exists nw. split_and!; try done.
      * intros x Hx. apply list_elem_of_further. by apply Hin.
      * intros g Hg. apply Hframe. intros Hg'. apply Hg. by apply list_elem_of_further.
    + intros (nw & Hw & Ho & Hin & Hframe & Hkeep & Hnil & Hcode)%IH.
      simpl in *. exists ((f, new) :: nw). split_and!.
      * by rewrite reverse_cons, <- app_assoc.
      * by rewrite Ho, <- app_assoc.
      * intros x [->|Hx]%elem_of_cons; [apply list_elem_of_here|].
        apply list_elem_of_further. by apply Hin.
      * intros g Hg. apply not_elem_of_cons in Hg as [Hne Hg].
        rewrite Hframe by done. by rewrite lookup_insert_ne.
      * intros g Hg. apply Hkeep.
        destruct (decide (f = g)) as [->|Hne];
          [by rewrite lookup_insert_eq|by rewrite lookup_insert_ne].
      * done.
      * intros code Hres. rewrite (Hcode code Hres).
        rewrite (bool_decide_eq_false_2 (_ :: _ = [])) by done. by case_bool_decide.
Qed.



End MainFacts.

(** X14: when [main] returns, it returns 0 or 1, and it returns 0 exactly
    when it has left the world as it was: no file rewritten, nothing
    written. *)
Theorem X14_exit_code decimal git_diff lower splitext args w w' out code :
  main decimal git_diff lower splitext args w = (w', out, inr code) →
  (code = 0 ∨ code = 1) ∧ (code = 0 ↔ w' = w).
Proof.
  unfold main.
  intros (new & Hw & _ & _ & _ & _ & Hnil & Hcode)%main_loop_inv.
  specialize (Hcode code eq_refl). case_bool_decide as Hnew.
  - split; [by left|]. split; [by auto|done].
  - subst code. split; [by right|]. split; [done|]. intros ->.
    exfalso. apply Hnew. apply (f_equal length) in Hw.
    rewrite length_app, length_reverse in Hw. destruct new; [done|]. simpl in Hw. lia.
Qed.

Lemma X14_exit_code_witness :
  let args := {| no_markdown_linebreak_ext := false; markdown_linebreak_ext := ["md"];
                 chars := None; only_changed_lines := false;
                 filenames := ["a.md"; "b.txt"] |} in
  let w := World {["a.md" := B "x  " ++ NL; "b.txt" := B "y  " ++ NL]} [] in
  let w' := World {["a.md" := B "x  " ++ NL; "b.txt" := B "y" ++ NL]}
                  [("b.txt", B "y" ++ NL)] in
  (1 = 0 ∨ 1 = 1) ∧ (1 = 0 ↔ w' = w).
Proof.
  intros args w w'.
  apply (X14_exit_code ascii_decimal (λ _, Exited 1 (Some []) (Some [])) (λ s, s)
           (λ s, (s, String.substring (String.length s - 3) 3 s)) args w w'
           ["Fixing b.txt"] 1).
  by vm_compute.
Defined.



(** X16: [main] never touches a file that is not named on the command line,
    and it never deletes a file; this holds also when it ends with an
    exception. *)
Theorem X16_other_files_untouched decimal git_diff lower splitext args w w' out res :
  main decimal git_diff lower splitext args w = (w', out, res) →
  (∀ g, g ∉ filenames args → files w' !! g = files w !! g) ∧
  (∀ g, is_Some (files w !! g) → is_Some (files w' !! g)).
Proof.
  unfold main.
  by intros (new & _ & _ & _ & Hframe & Hkeep & _)%main_loop_inv.
Qed.

Lemma X16_other_files_untouched_witness :
  let args := {| no_markdown_linebreak_ext := false; markdown_linebreak_ext := [];
                 chars := None; only_changed_lines := false; filenames := ["a"] |} in
  let w := World {["a" := B "1  " ++ NL; "b" := B "2  "]} [] in
  let w' := World {["a" := B "1" ++ NL; "b" := B "2  "]} [("a", B "1" ++ NL)] in
  (∀ g, g ∉ ["a"] → files w' !! g = files w !! g) ∧
  (∀ g, is_Some (files w !! g) → is_Some (files w' !! g)).
Proof.
  intros args w w'.
  apply (X16_other_files_untouched ascii_decimal (λ _, Exited 1 (Some []) (Some [])) (λ s, s)
           (λ s, (s, EmptyString)) args w w' ["Fixing a"] (inr 1)).
  by vm_compute.
Defined.



Lemma lstrip_dots_no_dot s t : lstrip_dots s ≠ String "."%char t.
Proof.
  induction s as [|c s IH]; simpl; [done|].
  case_bool_decide as Hc; [done|]. by intros [= -> _].
Qed.

(** X18: every entry of [md_exts] is a dot followed by a text that does not
    start with a dot, whatever number of leading dots the option was given
    with, and no entry comes from an empty piece of the option. *)
Theorem X18_md_exts_one_dot lower markdown_linebreak_ext ext :
  ext ∈ md_exts_of lower markdown_linebreak_ext →
  ∃ piece,
    piece ≠ EmptyString ∧
    piece ∈ split_comma (String.concat "," markdown_linebreak_ext) ∧
    ext = "." +:+ lstrip_dots (lower piece) ∧
    ∀ t, lstrip_dots (lower piece) ≠ String "."%char t.
Proof.
  unfold md_exts_of. intros (piece & -> & [Hne Hin]%list_elem_of_filter)%list_elem_of_fmap.
  exists piece. split_and!; [done..|]. apply lstrip_dots_no_dot.
Qed.

Lemma X18_md_exts_one_dot_witness :
  ∃ piece,
    piece ≠ EmptyString ∧
    piece ∈ split_comma (String.concat "," ["md,,..markdown"; ".txt"]) ∧
    ".markdown" = "." +:+ lstrip_dots piece ∧
    ∀ t, lstrip_dots piece ≠ String "."%char t.
Proof.
  apply (X18_md_exts_one_dot (λ s, s) ["md,,..markdown"; ".txt"] ".markdown").
  apply (bool_decide_unpack _). vm_compute. exact I.
Defined.

Lemma rstrip_with_spaces p (body : bytes) :
  p SP = true → rstrip_with p (body ++ TWO_SPACES) = rstrip_with p body.
Proof.
  intros Hp. change TWO_SPACES with ([SP] ++ [SP]).
  by rewrite app_assoc, !rstrip_with_snoc, Hp.
Qed.

(** X19: with the default strip characters, Markdown mode differs from the
    plain mode in one thing only: where the hard-break guard holds, the two
    spaces are put back behind the stripped content. *)
Theorem X19_markdown_adds_hard_break line :
  ∃ stripped,
    _process_line line false None = stripped ++ (split_eol line).2 ∧
    _process_line line true None =
      stripped ++ (if hard_break true (split_eol line).1 then TWO_SPACES else [])
               ++ (split_eol line).2.
Proof.
  exists (rstrip None (split_eol line).1). rewrite !process_line_eq.
  split; [done|]. unfold rewrite_content.
  destruct (hard_break true (split_eol line).1) eqn:Hb; [|done].
  apply hard_break_true in Hb as (_ & _ & body & ->).
  rewrite slice_to_neg_spaces. unfold rstrip.
  by rewrite rstrip_with_spaces, <- app_assoc.
Qed.
